(** * esp32_wifi_entest: the handshake capture engine

    A shallow embedding of [components/pcap_writer/pcap_writer.c],
    [main/handshake_capture.c] and the attack handler of
    [main/http_server.c].

    - Bytes and machine integers are [Z]; wrap-around of fixed-width
      fields is written out with [mod].
    - The C statics ([pcap_file], [g_capturing], [g_target_bssid],
      [g_target_channel], [orig_cb]) and the environment the code talks
      to (SPIFFS files, the radio, the two clocks, the HTTP response under
      construction) are the fields of one [world] record.
    - An action of the program is a function [world -> outcome A]: it
      returns a value and a new world, or is [Undefined] (a read outside
      a buffer), or is [Pending] (the scripted environment ended before
      the transmit loop did).
    - The receive callback runs on another task.  Its calls are put at
      the points of [handshake_deauth_and_capture] between which they
      can have an effect: a [schedule] lists the frames delivered before
      the transmit loop, in each of its rounds, and after it.
    - Structs handed to [fwrite] are laid out as on the ESP32: little
      endian, fields at their natural alignment, which for both PCAP
      structs means no padding. *)

From Stdlib Require Import Ascii.
From stdpp Require Import base numbers option list strings gmap.

Local Open Scope Z_scope.
Set Warnings "-clear-no-such-hyp".

(** ** Fixed-width integers and their byte images *)

Definition u8  (x : Z) : Z := x mod 2^8.
Definition u16 (x : Z) : Z := x mod 2^16.
Definition u32 (x : Z) : Z := x mod 2^32.

Definition le16 (x : Z) : list Z :=
  [ x mod 256; (x / 2^8) mod 256 ].

Definition le32 (x : Z) : list Z :=
  [ x mod 256; (x / 2^8) mod 256; (x / 2^16) mod 256; (x / 2^24) mod 256 ].

(** Reading a little-endian field back out of a byte sequence. *)
Definition get_le16 (bs : list Z) (off : nat) : option Z :=
  match drop off bs with
  | b0 :: b1 :: _ => Some (b0 + 2^8 * b1)
  | _ => None
  end.

Definition get_le32 (bs : list Z) (off : nat) : option Z :=
  match drop off bs with
  | b0 :: b1 :: b2 :: b3 :: _ => Some (b0 + 2^8 * b1 + 2^16 * b2 + 2^24 * b3)
  | _ => None
  end.

(** ** The environment *)

(** [struct timeval] as filled in by [gettimeofday]. *)
Record timeval := { tv_sec : Z; tv_usec : Z }.

(** What the next [fopen] or [fwrite] will do: complete, or fail after
    having put at most [n] bytes on the medium. *)
Inductive io_outcome :=
| IoOk
| IoErr (n : nat).

(** The one function this program ever registers as promiscuous receive
    callback. *)
Inductive rx_callback := promisc_cb_fn.

Inductive radio_call :=
| SetPromiscuous (on : bool)
| WifiStop
| WifiStart
| SetChannel (primary : Z)
| SetPromiscuousRxCb (cb : option rx_callback)
| GetMac
| Tx80211 (frame : list Z).

Record radio_t := {
  promiscuous : bool;
  wifi_started : bool;
  channel : Z;
  rx_cb : option rx_callback;
  sta_mac : list Z;
  radio_log : list radio_call
}.

Inductive http_event :=
| RespStatus (s : string)
| RespHdr (k v : string)
| RespSend
| RespSendErr (code : Z) (msg : string)
| RespSetType (t : string)
| RespDonePage.

Inductive esp_err_t :=
| ESP_OK
| ESP_FAIL
| ESP_ERR_INVALID_ARG
| ESP_ERR_INVALID_STATE.

Record world := {
  (* handshake_capture.c *)
  g_capturing : bool;
  g_target_bssid : list Z;
  g_target_channel : Z;
  orig_cb : option rx_callback;
  (* pcap_writer.c: NULL, or the stream opened on that path *)
  pcap_file : option string;
  (* outside the program *)
  fs : gmap string (list Z);
  io_script : list io_outcome;
  tod : timeval;
  now_us : Z;
  radio : radio_t;
  http_log : list http_event
}.

Definition set_g_capturing (b : bool) (w : world) : world :=
  {| g_capturing := b; g_target_bssid := g_target_bssid w;
     g_target_channel := g_target_channel w; orig_cb := orig_cb w;
     pcap_file := pcap_file w; fs := fs w; io_script := io_script w;
     tod := tod w; now_us := now_us w; radio := radio w;
     http_log := http_log w |}.

Definition set_g_target_bssid (b : list Z) (w : world) : world :=
  {| g_capturing := g_capturing w; g_target_bssid := b;
     g_target_channel := g_target_channel w; orig_cb := orig_cb w;
     pcap_file := pcap_file w; fs := fs w; io_script := io_script w;
     tod := tod w; now_us := now_us w; radio := radio w;
     http_log := http_log w |}.

Definition set_g_target_channel (c : Z) (w : world) : world :=
  {| g_capturing := g_capturing w; g_target_bssid := g_target_bssid w;
     g_target_channel := c; orig_cb := orig_cb w;
     pcap_file := pcap_file w; fs := fs w; io_script := io_script w;
     tod := tod w; now_us := now_us w; radio := radio w;
     http_log := http_log w |}.

Definition set_orig_cb (c : option rx_callback) (w : world) : world :=
  {| g_capturing := g_capturing w; g_target_bssid := g_target_bssid w;
     g_target_channel := g_target_channel w; orig_cb := c;
     pcap_file := pcap_file w; fs := fs w; io_script := io_script w;
     tod := tod w; now_us := now_us w; radio := radio w;
     http_log := http_log w |}.

Definition set_pcap_file (f : option string) (w : world) : world :=
  {| g_capturing := g_capturing w; g_target_bssid := g_target_bssid w;
     g_target_channel := g_target_channel w; orig_cb := orig_cb w;
     pcap_file := f; fs := fs w; io_script := io_script w;
     tod := tod w; now_us := now_us w; radio := radio w;
     http_log := http_log w |}.

Definition set_fs (m : gmap string (list Z)) (w : world) : world :=
  {| g_capturing := g_capturing w; g_target_bssid := g_target_bssid w;
     g_target_channel := g_target_channel w; orig_cb := orig_cb w;
     pcap_file := pcap_file w; fs := m; io_script := io_script w;
     tod := tod w; now_us := now_us w; radio := radio w;
     http_log := http_log w |}.

Definition set_io_script (s : list io_outcome) (w : world) : world :=
  {| g_capturing := g_capturing w; g_target_bssid := g_target_bssid w;
     g_target_channel := g_target_channel w; orig_cb := orig_cb w;
     pcap_file := pcap_file w; fs := fs w; io_script := s;
     tod := tod w; now_us := now_us w; radio := radio w;
     http_log := http_log w |}.

Definition set_tod (t : timeval) (w : world) : world :=
  {| g_capturing := g_capturing w; g_target_bssid := g_target_bssid w;
     g_target_channel := g_target_channel w; orig_cb := orig_cb w;
     pcap_file := pcap_file w; fs := fs w; io_script := io_script w;
     tod := t; now_us := now_us w; radio := radio w;
     http_log := http_log w |}.

Definition set_now_us (t : Z) (w : world) : world :=
  {| g_capturing := g_capturing w; g_target_bssid := g_target_bssid w;
     g_target_channel := g_target_channel w; orig_cb := orig_cb w;
     pcap_file := pcap_file w; fs := fs w; io_script := io_script w;
     tod := tod w; now_us := t; radio := radio w;
     http_log := http_log w |}.

Definition set_radio (r : radio_t) (w : world) : world :=
  {| g_capturing := g_capturing w; g_target_bssid := g_target_bssid w;
     g_target_channel := g_target_channel w; orig_cb := orig_cb w;
     pcap_file := pcap_file w; fs := fs w; io_script := io_script w;
     tod := tod w; now_us := now_us w; radio := r;
     http_log := http_log w |}.

Definition set_http_log (l : list http_event) (w : world) : world :=
  {| g_capturing := g_capturing w; g_target_bssid := g_target_bssid w;
     g_target_channel := g_target_channel w; orig_cb := orig_cb w;
     pcap_file := pcap_file w; fs := fs w; io_script := io_script w;
     tod := tod w; now_us := now_us w; radio := radio w;
     http_log := l |}.

(** ** Actions *)

Inductive outcome (A : Type) : Type :=
| Ret (a : A) (w : world)
| Undefined
| Pending.

Arguments Ret {A} a w.
Arguments Undefined {A}.
Arguments Pending {A}.

Definition M (A : Type) : Type := world -> outcome A.

Definition ret {A} (a : A) : M A := fun w => Ret a w.

Definition bind {A B} (m : M A) (f : A -> M B) : M B :=
  fun w =>
    match m w with
    | Ret a w' => f a w'
    | Undefined => Undefined
    | Pending => Pending
    end.

Definition get {A} (proj : world -> A) : M A := fun w => Ret (proj w) w.
Definition modify (f : world -> world) : M unit := fun w => Ret tt (f w).
Definition undefined {A} : M A := fun _ => Undefined.

Declare Scope action_scope.
Delimit Scope action_scope with action.
Notation "x <- c1 ;; c2" := (bind c1 (fun x => c2))
  (at level 100, c1 at next level, right associativity) : action_scope.
Notation "c1 ;; c2" := (bind c1 (fun _ => c2))
  (at level 100, right associativity) : action_scope.
Local Open Scope action_scope.

(** ** The sink: libc as the writer uses it *)

(** Modelled from the spec: the sink of section 6, a byte stream that
    is created, written and closed, each operation succeeding in full or
    reporting failure.  [fopen], [fwrite], [fclose] and [gettimeofday]
    are the C library's, not the repository's.  A write that fails may
    still have put some of its bytes on the medium. *)
Module Libc.

(** The script says what the next operation on the medium does; once it
    is used up every operation completes. *)
Definition next_io : M io_outcome :=
  fun w =>
    match io_script w with
    | [] => Ret IoOk w
    | o :: rest => Ret o (set_io_script rest w)
    end.

(** [fopen(filename, "wb")]: the stream, or NULL.  On success the file
    exists and is empty. *)
Definition fopen_wb (filename : string) : M (option string) :=
  o <- next_io ;;
  match o with
  | IoOk => modify (fun w => set_fs (<[filename := []]> (fs w)) w) ;;
            ret (Some filename)
  | IoErr _ => ret None
  end.

(** [fwrite(ptr, size, 1, stream)], the only shape used: the number of
    whole items written, 1 or 0.  A zero [size] writes nothing and
    returns 0; taking [size] bytes from a shorter buffer is undefined;
    a failing write leaves fewer than [size] bytes behind. *)
Definition fwrite (ptr : list Z) (size : Z) (stream : string) : M Z :=
  if size =? 0 then ret 0
  else if Z.of_nat (length ptr) <? size then undefined
  else
    o <- next_io ;;
    match o with
    | IoOk =>
        modify (fun w =>
          set_fs (alter (fun c => c ++ take (Z.to_nat size) ptr) stream (fs w)) w) ;;
        ret 1
    | IoErr n =>
        modify (fun w =>
          set_fs (alter (fun c => c ++ take (n `min` (Z.to_nat size - 1)) ptr)
                        stream (fs w)) w) ;;
        ret 0
    end.

(** [fclose]: the file already holds everything the stream accepted. *)
Definition fclose (stream : string) : M unit := ret tt.

Definition gettimeofday : M timeval := get tod.

End Libc.

(** ** pcap_writer.c *)

Module PcapWriter.
Import Libc.

Record pcap_global_header_t := {
  magic_number : Z;
  version_major : Z;
  version_minor : Z;
  thiszone : Z;
  sigfigs : Z;
  snaplen : Z;
  network : Z
}.

Record pcap_packet_header_t := {
  ts_sec : Z;
  ts_usec : Z;
  incl_len : Z;
  orig_len : Z
}.

(** The object representation [fwrite(&gh, sizeof(gh), ...)] sends out. *)
Definition global_header_bytes (gh : pcap_global_header_t) : list Z :=
  le32 (magic_number gh) ++ le16 (version_major gh) ++ le16 (version_minor gh)
  ++ le32 (u32 (thiszone gh)) ++ le32 (sigfigs gh) ++ le32 (snaplen gh)
  ++ le32 (network gh).

Definition packet_header_bytes (ph : pcap_packet_header_t) : list Z :=
  le32 (ts_sec ph) ++ le32 (ts_usec ph) ++ le32 (incl_len ph) ++ le32 (orig_len ph).

Definition sizeof_gh : Z := 24.
Definition sizeof_ph : Z := 16.

Definition gh : pcap_global_header_t :=
  {| magic_number := 0xa1b2c3d4;
     version_major := 2;
     version_minor := 4;
     thiszone := 0;
     sigfigs := 0;
     snaplen := 0x0000ffff;
     network := 105 |}.

Definition pcap_writer_init (filename : string) : M bool :=
  f <- fopen_wb filename ;;
  modify (set_pcap_file f) ;;
  match f with
  | None => ret false
  | Some fp =>
      w <- fwrite (global_header_bytes gh) sizeof_gh fp ;;
      if negb (w =? 1) then
        fclose fp ;;
        modify (set_pcap_file None) ;;
        ret false
      else ret true
  end.

Definition pcap_writer_write_packet (data : list Z) (length : Z) : M bool :=
  pf <- get pcap_file ;;
  match pf with
  | None => ret false
  | Some fp =>
      tv <- gettimeofday ;;
      let ph := {| ts_sec := u32 (tv_sec tv);
                   ts_usec := u32 (tv_usec tv);
                   incl_len := length;
                   orig_len := length |} in
      w1 <- fwrite (packet_header_bytes ph) sizeof_ph fp ;;
      if negb (w1 =? 1) then ret false
      else
        w2 <- fwrite data length fp ;;
        if negb (w2 =? 1) then ret false
        else ret true
  end.

Definition pcap_writer_close : M unit :=
  pf <- get pcap_file ;;
  match pf with
  | Some fp => fclose fp ;; modify (set_pcap_file None)
  | None => ret tt
  end.

End PcapWriter.

(** ** The radio and the timer (ESP-IDF) *)

(** Modelled from the spec: the Radio Interface of section 6
    (promiscuous mode on and off, channel, stop and start, raw
    transmission without confirmation, registration of the receive
    callback handing back the previous one, the local address).  The
    [esp_wifi_*] functions and [esp_timer_get_time] are ESP-IDF's, not
    the repository's.  Every call takes effect and is logged; the code
    never looks at the [esp_err_t] these calls return. *)
Module EspWifi.

Definition radio_do (c : radio_call) (f : radio_t -> radio_t) : M unit :=
  modify (fun w =>
    let r := f (radio w) in
    set_radio {| promiscuous := promiscuous r; wifi_started := wifi_started r;
                 channel := channel r; rx_cb := rx_cb r; sta_mac := sta_mac r;
                 radio_log := radio_log r ++ [c] |} w).

Definition esp_wifi_set_promiscuous (en : bool) : M unit :=
  radio_do (SetPromiscuous en) (fun r =>
    {| promiscuous := en; wifi_started := wifi_started r; channel := channel r;
       rx_cb := rx_cb r; sta_mac := sta_mac r; radio_log := radio_log r |}).

Definition esp_wifi_stop : M unit :=
  radio_do WifiStop (fun r =>
    {| promiscuous := promiscuous r; wifi_started := false; channel := channel r;
       rx_cb := rx_cb r; sta_mac := sta_mac r; radio_log := radio_log r |}).

Definition esp_wifi_start : M unit :=
  radio_do WifiStart (fun r =>
    {| promiscuous := promiscuous r; wifi_started := true; channel := channel r;
       rx_cb := rx_cb r; sta_mac := sta_mac r; radio_log := radio_log r |}).

Definition esp_wifi_set_channel (primary : Z) : M unit :=
  radio_do (SetChannel primary) (fun r =>
    {| promiscuous := promiscuous r; wifi_started := wifi_started r;
       channel := primary; rx_cb := rx_cb r; sta_mac := sta_mac r;
       radio_log := radio_log r |}).

(** Installs [cb] and hands back the callback that was installed before. *)
Definition esp_wifi_set_promiscuous_rx_cb (cb : option rx_callback)
  : M (option rx_callback) :=
  prev <- get (fun w => rx_cb (radio w)) ;;
  radio_do (SetPromiscuousRxCb cb) (fun r =>
    {| promiscuous := promiscuous r; wifi_started := wifi_started r;
       channel := channel r; rx_cb := cb; sta_mac := sta_mac r;
       radio_log := radio_log r |}) ;;
  ret prev.

Definition esp_wifi_get_mac : M (list Z) :=
  radio_do GetMac (fun r => r) ;;
  get (fun w => sta_mac (radio w)).

Definition esp_wifi_80211_tx (buffer : list Z) (len : nat) : M unit :=
  radio_do (Tx80211 (take len buffer)) (fun r => r).

Definition esp_timer_get_time : M Z := get now_us.

End EspWifi.

(** ** handshake_capture.c *)

Module HandshakeCapture.
Import Libc PcapWriter EspWifi.

(** [wifi_promiscuous_pkt_t]: the length the radio reports
    ([rx_ctrl.sig_len], an unsigned 12-bit field, so its conversions to
    [uint16_t] and [uint32_t] keep the value) and the bytes of the
    receive buffer starting at [payload]. *)
Record wifi_promiscuous_pkt_t := {
  sig_len : Z;
  payload : list Z
}.

(** Reads of a buffer, with the offsets they touch: the list of offsets
    read so far, and the value unless a read fell outside the buffer. *)
Definition R (A : Type) : Type := (list nat * option A)%type.

Definition rret {A} (a : A) : R A := ([], Some a).

Definition rbind {A B} (m : R A) (f : A -> R B) : R B :=
  match m with
  | (t, Some a) => let '(t', r) := f a in (t ++ t', r)
  | (t, None) => (t, None)
  end.

Definition load (mem : list Z) (i : nat) : R Z := ([i], mem !! i).

(** C's [a && b] on reads: [b] is evaluated only when [a] holds. *)
Definition rand (a b : R bool) : R bool :=
  rbind a (fun x => if x then b else rret false).

Definition byte_eq (mem : list Z) (i : nat) (v : Z) : R bool :=
  rbind (load mem i) (fun b => rret (b =? v)).

Infix "&&>" := rand (at level 41, right associativity).

(** [llc = payload + 24]: offset [i] of the LLC/SNAP header is offset
    [24 + i] of the payload. *)
Definition llc (i : nat) : nat := 24 + i.

(** The part of [promisc_cb] between the [g_capturing] test and the call
    of the writer: [true] when the frame is handed to the writer. *)
Definition promisc_cb_filter (pkt : wifi_promiscuous_pkt_t) : R bool :=
  let payload := payload pkt in
  let len := sig_len pkt in
  rbind (load payload 0) (fun p0 =>
  rbind (load payload 1) (fun p1 =>
  let fc := u16 (Z.lor p0 (Z.shiftl p1 8)) in
  let frame_type := u8 (Z.land (Z.shiftr fc 2) 0x3) in
  if negb (frame_type =? 2) then rret false
  else if len <? 30 then rret false
  else
    byte_eq payload (llc 0) 0xAA &&> byte_eq payload (llc 1) 0xAA &&>
    byte_eq payload (llc 2) 0x03 &&>
    byte_eq payload (llc 3) 0x00 &&> byte_eq payload (llc 4) 0x0c &&>
    byte_eq payload (llc 5) 0x00 &&>
    byte_eq payload (llc 6) 0x88 &&> byte_eq payload (llc 7) 0x8e)).

Definition promisc_cb (buf : wifi_promiscuous_pkt_t) : M unit :=
  capturing <- get g_capturing ;;
  if negb capturing then ret tt
  else
    match snd (promisc_cb_filter buf) with
    | None => undefined
    | Some false => ret tt
    | Some true =>
        pcap_writer_write_packet (payload buf) (sig_len buf) ;;
        ret tt
    end.

(** [memcpy(&dst[off], src, n)] on arrays. *)
Definition memcpy (dst : list Z) (off : nat) (src : list Z) (n : nat) : list Z :=
  take off dst ++ take n src ++ drop (off + n) dst.

(** The buffer [send_deauth_frame] builds before transmitting it. *)
Definition deauth_frame (dest src bssid : list Z) : list Z :=
  let deauth := replicate 26 0 in
  let deauth := <[0%nat := 0xc0]> deauth in
  let deauth := memcpy deauth 4 dest 6 in
  let deauth := memcpy deauth 10 src 6 in
  let deauth := memcpy deauth 16 bssid 6 in
  let deauth := <[24%nat := 0x07]> deauth in
  let deauth := <[25%nat := 0x00]> deauth in
  deauth.

Definition send_deauth_frame (dest src bssid : list Z) : M unit :=
  esp_wifi_80211_tx (deauth_frame dest src bssid) 26.

(** What happens during one iteration of the transmit loop, from one
    test of its condition to the next: the frames the radio delivers,
    each with the time of day at which its callback runs, and the time
    that has passed when the task wakes from [vTaskDelay].  The callback
    runs on the Wi-Fi task.  It writes to the capture file and the
    transmission only adds to the log of the radio, so a frame that
    arrives while the deauthentication frame is being sent leaves the
    same state as one that arrives in the sleep that follows (lemma
    [delivery_commutes_with_transmission]); the frames of an iteration
    are delivered in its sleep. *)
Record round := {
  rx : list (timeval * wifi_promiscuous_pkt_t);
  elapsed_us : Z
}.

(** What the environment does during one call of
    [handshake_deauth_and_capture].  The callback is live, that is
    registered with [g_capturing] set and promiscuous mode on, from the
    assignment [g_capturing = true] to the call
    [esp_wifi_set_promiscuous(false)] of step 6.  [before_loop] holds
    the frames delivered before the loop is entered (around the first
    [ESP_LOGI], [esp_wifi_get_mac] and the reading of [start_ms]),
    [in_loop] has one round for each iteration of the loop, and
    [after_loop] holds the frames delivered between the last test of the
    loop condition and step 6.  A frame delivered before the assignment
    finds [g_capturing] unset, and none is delivered once promiscuous
    mode is off: they change nothing and are left out.  Where exactly
    between two of these points a frame arrives makes no difference to
    the state (lemmas [delivery_commutes_with_loop_entry] and
    [deliver_all_keeps]: a delivery changes the time of day, the files
    and the I/O script, and none of the radio, the clock and the
    statics). *)
Record schedule := {
  before_loop : list (timeval * wifi_promiscuous_pkt_t);
  in_loop : list round;
  after_loop : list (timeval * wifi_promiscuous_pkt_t)
}.

Definition deliver (ev : timeval * wifi_promiscuous_pkt_t) : M unit :=
  modify (set_tod (fst ev)) ;;
  r <- get radio ;;
  match rx_cb r, promiscuous r with
  | Some promisc_cb_fn, true => promisc_cb (snd ev)
  | _, _ => ret tt
  end.

Fixpoint deliver_all (evs : list (timeval * wifi_promiscuous_pkt_t)) : M unit :=
  match evs with
  | [] => ret tt
  | ev :: evs' => deliver ev ;; deliver_all evs'
  end.

Definition vTaskDelay (r : round) : M unit :=
  deliver_all (rx r) ;;
  modify (fun w => set_now_us (now_us w + elapsed_us r) w).

Definition brc : list Z := [0xff; 0xff; 0xff; 0xff; 0xff; 0xff].

(** The [while] loop of step 5; one [round] of the schedule per
    iteration. *)
Fixpoint deauth_loop (start_ms duration_ms : Z) (esp_mac : list Z)
    (sched : list round) : M unit :=
  now <- esp_timer_get_time ;;
  if (now `quot` 1000 - start_ms) <? duration_ms then
    match sched with
    | [] => fun _ => Pending
    | r :: sched' =>
        bssid <- get g_target_bssid ;;
        send_deauth_frame brc esp_mac bssid ;;
        vTaskDelay r ;;
        deauth_loop start_ms duration_ms esp_mac sched'
    end
  else ret tt.

Definition handshake_deauth_and_capture (bssid : list Z) (channel : Z)
    (duration_ms : Z) (sched : schedule) : M esp_err_t :=
  capturing <- get g_capturing ;;
  if capturing then ret ESP_ERR_INVALID_STATE
  else
    modify (fun w => set_g_target_bssid (memcpy (g_target_bssid w) 0 bssid 6) w) ;;
    modify (set_g_target_channel channel) ;;
    (* 1 *)
    esp_wifi_set_promiscuous false ;;
    esp_wifi_stop ;;
    (* 2 *)
    ch <- get g_target_channel ;;
    esp_wifi_set_channel ch ;;
    esp_wifi_start ;;
    esp_wifi_set_promiscuous true ;;
    (* 3 *)
    ok <- pcap_writer_init "/spiffs/handshake.pcap" ;;
    if negb ok then ret ESP_FAIL
    else
      (* 4 *)
      prev <- esp_wifi_set_promiscuous_rx_cb (Some promisc_cb_fn) ;;
      modify (set_orig_cb prev) ;;
      modify (set_g_capturing true) ;;
      deliver_all (before_loop sched) ;;
      esp_mac <- esp_wifi_get_mac ;;
      (* 5 *)
      now <- esp_timer_get_time ;;
      let start_ms := u32 (now `quot` 1000) in
      deauth_loop start_ms duration_ms esp_mac (in_loop sched) ;;
      deliver_all (after_loop sched) ;;
      (* 6 *)
      esp_wifi_set_promiscuous false ;;
      esp_wifi_set_promiscuous_rx_cb None ;;
      (* 7 *)
      pcap_writer_close ;;
      modify (set_g_capturing false) ;;
      (* 8 *)
      esp_wifi_stop ;;
      esp_wifi_start ;;
      ret ESP_OK.

End HandshakeCapture.

(** ** http_server.c: the [/attack] handler, the caller of the capture *)

Module HttpServer.
Import HandshakeCapture.

(** The request as the handler sees it: its URI, and what
    [httpd_query_key_value] leaves in the zero-initialised buffers
    [ssid[33]], [chan_str[8]] and [bssid_str[18]] (the empty string when
    the key is absent). *)
Record httpd_req_t := {
  uri : string;
  query_ssid : string;
  query_chan : string;
  query_bssid : string
}.

Definition code_of (c : ascii) : Z := Z.of_nat (nat_of_ascii c).

Definition isspace (c : ascii) : bool :=
  let n := code_of c in (n =? 32) || ((9 <=? n) && (n <=? 13)).

Definition digit_val (c : ascii) : option Z :=
  let n := code_of c in
  if (48 <=? n) && (n <=? 57) then Some (n - 48) else None.

Definition xdigit_val (c : ascii) : option Z :=
  let n := code_of c in
  if (48 <=? n) && (n <=? 57) then Some (n - 48)
  else if (97 <=? n) && (n <=? 102) then Some (n - 87)
  else if (65 <=? n) && (n <=? 70) then Some (n - 55)
  else None.

Fixpoint skip_space (s : string) : string :=
  match s with
  | String c s' => if isspace c then skip_space s' else s
  | EmptyString => s
  end.

Fixpoint digits (acc : Z) (s : string) : Z :=
  match s with
  | String c s' =>
      match digit_val c with
      | Some d => digits (10 * acc + d) s'
      | None => acc
      end
  | EmptyString => acc
  end.

(** [atoi] on a string of at most seven characters (no overflow of
    [int]): blanks, an optional sign, then decimal digits. *)
Definition atoi (s : string) : Z :=
  match skip_space s with
  | String "-" s' => - digits 0 s'
  | String "+" s' => digits 0 s'
  | s' => digits 0 s'
  end.

Fixpoint xdigits (acc : Z) (seen : bool) (s : string) : option (Z * string) :=
  match s with
  | String c s' =>
      match xdigit_val c with
      | Some d => xdigits (16 * acc + d) true s'
      | None => if seen then Some (acc, s) else None
      end
  | EmptyString => if seen then Some (acc, s) else None
  end.

(** One [%x] conversion: blanks, an optional sign, an optional [0x]
    prefix, then at least one hexadecimal digit. *)
Definition scan_x (s : string) : option (Z * string) :=
  let s := skip_space s in
  let '(neg, s) :=
    match s with
    | String "-" s' => (true, s')
    | String "+" s' => (false, s')
    | _ => (false, s)
    end in
  let s :=
    match s with
    | String "0" (String x (String c s')) =>
        if ((x =? "x")%char || (x =? "X")%char) && bool_decide (is_Some (xdigit_val c))
        then String c s' else s
    | _ => s
    end in
  match xdigits 0 false s with
  | Some (v, rest) => Some (if neg : bool then - v else v, rest)
  | None => None
  end.

(** [sscanf(str, "%x:%x:%x:%x:%x:%x", ...) == 6]: the six values when all
    six conversions succeed. *)
Fixpoint sscanf_x (n : nat) (s : string) : option (list Z) :=
  match n with
  | O => Some []
  | S n' =>
      match scan_x s with
      | None => None
      | Some (v, rest) =>
          match n' with
          | O => Some [v]
          | S _ =>
              match rest with
              | String ":" rest' => cons v <$> sscanf_x n' rest'
              | _ => None
              end
          end
      end
  end.

Definition http_do (ev : http_event) : M unit :=
  modify (fun w => set_http_log (http_log w ++ [ev]) w).

Definition httpd_resp_send_err (code : Z) (msg : string) : M unit :=
  http_do (RespSendErr code msg).

Definition handshake_pcap : string := "/spiffs/handshake.pcap".

(** [stat(...) == 0] *)
Definition handshake_exists : M bool :=
  m <- get fs ;;
  ret (match m !! handshake_pcap with Some _ => true | None => false end).

Definition unlink (path : string) : M unit :=
  modify (fun w => set_fs (delete path (fs w)) w).

Definition check_and_clean (req : httpd_req_t) : M bool :=
  ex <- handshake_exists ;;
  if ex then
    if negb (String.eqb (String.substring 0 9 (uri req)) "/download") then
      unlink handshake_pcap ;;
      http_do (RespStatus "302 Found") ;;
      http_do (RespHdr "Location" "/scan") ;;
      http_do RespSend ;;
      ret true
    else ret false
  else ret false.

Definition attack_get_handler (req : httpd_req_t) (sched : schedule)
  : M esp_err_t :=
  cleaned <- check_and_clean req ;;
  if cleaned then ret ESP_OK
  else
    let ssid := query_ssid req in
    let chan_str := query_chan req in
    let bssid_str := query_bssid req in
    if (String.length ssid =? 0)%nat || (String.length chan_str =? 0)%nat
       || negb (String.length bssid_str =? 17)%nat
    then httpd_resp_send_err 400 "Bad parameters" ;; ret ESP_FAIL
    else
      let channel := atoi chan_str in
      if (channel <? 1) || (channel >? 13)
      then httpd_resp_send_err 400 "Invalid channel" ;; ret ESP_FAIL
      else
        match sscanf_x 6 bssid_str with
        | None => httpd_resp_send_err 400 "Bad BSSID" ;; ret ESP_FAIL
        | Some vals =>
            let bssid := u8 <$> vals in
            r <- handshake_deauth_and_capture bssid (u8 channel) 20000 sched ;;
            match r with
            | ESP_OK =>
                http_do (RespSetType "text/html") ;;
                http_do RespDonePage ;;
                http_do RespSend ;;
                ret ESP_OK
            | _ =>
                httpd_resp_send_err 500 "Capture failed" ;;
                ret ESP_FAIL
            end
        end.

End HttpServer.

(** ** The operations under the names the specification gives them *)

Module Ops.
Import PcapWriter HandshakeCapture.

(** [writeFrame(bytes, timestamp)]: the writer is handed the whole byte
    sequence while the time of day is [timestamp]. *)
Definition writeFrame (bytes : list Z) (timestamp : timeval) : M bool :=
  modify (set_tod timestamp) ;;
  pcap_writer_write_packet bytes (Z.of_nat (length bytes)).

(** A sequence of [writeFrame] calls, with the result of each. *)
Fixpoint write_frames (frames : list (list Z * timeval)) : M (list bool) :=
  match frames with
  | [] => ret []
  | f :: frames' =>
      b <- writeFrame (fst f) (snd f) ;;
      bs <- write_frames frames' ;;
      ret (b :: bs)
  end.

(** The bytes one accepted frame adds to the file: the image of the
    [pcap_packet_header_t] the writer fills in, then the payload. *)
Definition frame_record (f : list Z * timeval) : list Z :=
  packet_header_bytes
    {| ts_sec := u32 (tv_sec (snd f)); ts_usec := u32 (tv_usec (snd f));
       incl_len := Z.of_nat (length (fst f));
       orig_len := Z.of_nat (length (fst f)) |}
  ++ fst f.

(** Modelled from the spec: a reader of the capture format of section 6.
    Behind the 24-byte header, each record is 16 bytes of header
    (seconds, microseconds, captured length, original length, all
    little endian) followed by as many bytes as the captured length
    says. *)
Record pcap_record := {
  rec_sec : Z;
  rec_usec : Z;
  rec_incl : Z;
  rec_orig : Z;
  rec_data : list Z
}.

Fixpoint read_records (fuel : nat) (bs : list Z) : option (list pcap_record) :=
  match bs with
  | [] => Some []
  | _ :: _ =>
      match fuel with
      | O => None
      | S fuel' =>
          sec ← get_le32 bs 0;
          usec ← get_le32 bs 4;
          incl ← get_le32 bs 8;
          orig ← get_le32 bs 12;
          let body := drop 16 bs in
          if Z.of_nat (length body) <? incl then None
          else
            rest ← read_records fuel' (drop (Z.to_nat incl) body);
            Some ({| rec_sec := sec; rec_usec := usec; rec_incl := incl;
                     rec_orig := orig;
                     rec_data := take (Z.to_nat incl) body |} :: rest)
      end
  end.

(** What the reader is expected to find for a frame written at a given
    time of day. *)
Definition record_of (f : list Z * timeval) : pcap_record :=
  {| rec_sec := u32 (tv_sec (snd f)); rec_usec := u32 (tv_usec (snd f));
     rec_incl := Z.of_nat (length (fst f));
     rec_orig := Z.of_nat (length (fst f));
     rec_data := fst f |}.

Definition pcap_read (file : list Z) : option (list Z * list pcap_record) :=
  if (length file <? 24)%nat then None
  else
    recs ← read_records (length file) (drop 24 file);
    Some (take 24 file, recs).

(** The time a list of rounds covers. *)
Definition total_elapsed (sched : list round) : Z :=
  foldr (fun r acc => elapsed_us r + acc) 0 sched.

(** Every byte the callback touches for this frame lies in its buffer:
    the reads of the filter, and the [sig_len] bytes handed on. *)
Definition readable (pkt : wifi_promiscuous_pkt_t) : Prop :=
  is_Some (snd (promisc_cb_filter pkt))
  /\ sig_len pkt <= Z.of_nat (length (payload pkt)).

(** The frame itself: the first [sig_len] bytes of the receive buffer. *)
Definition frame_bytes (pkt : wifi_promiscuous_pkt_t) : list Z :=
  take (Z.to_nat (sig_len pkt)) (payload pkt).

(** The Frame Classifier in the words of the specification, on the
    frame itself: type Data in the frame control, at least 30 bytes,
    and the eight bytes at offset 24 equal to the EAPOL pattern. *)
Definition classifier_retains (pkt : wifi_promiscuous_pkt_t) : Prop :=
  (exists p0, frame_bytes pkt !! 0%nat = Some p0
              /\ Z.testbit p0 2 = false /\ Z.testbit p0 3 = true)
  /\ 30 <= sig_len pkt
  /\ take 8 (drop 24 (frame_bytes pkt))
     = [0xAA; 0xAA; 0x03; 0x00; 0x0C; 0x00; 0x88; 0x8E].

Definition frames_readable (evs : list (timeval * wifi_promiscuous_pkt_t)) : Prop :=
  Forall (fun ev => readable (snd ev)) evs.

Definition rounds_readable (rs : list round) : Prop :=
  Forall (fun r => frames_readable (rx r)) rs.

Definition sched_readable (sched : schedule) : Prop :=
  frames_readable (before_loop sched)
  /\ rounds_readable (in_loop sched)
  /\ frames_readable (after_loop sched).

End Ops.

(** ** Sample worlds and frames *)

Module Samples.
Import PcapWriter HandshakeCapture HttpServer Ops.

Definition radio0 : radio_t :=
  {| promiscuous := false; wifi_started := true; channel := 1; rx_cb := None;
     sta_mac := [0x24; 0x6f; 0x28; 0x01; 0x02; 0x03]; radio_log := [] |}.

(** After boot: nothing captured yet, station mode, empty SPIFFS. *)
Definition idle (script : list io_outcome) : world :=
  {| g_capturing := false; g_target_bssid := replicate 6 0;
     g_target_channel := 1; orig_cb := None; pcap_file := None;
     fs := ∅; io_script := script;
     tod := {| tv_sec := 1700000000; tv_usec := 250 |};
     now_us := 5000000; radio := radio0; http_log := [] |}.

Definition ap : list Z := [0xde; 0xad; 0xbe; 0xef; 0x00; 0x01].

Definition eapol_llc : list Z := [0xAA; 0xAA; 0x03; 0x00; 0x0C; 0x00; 0x88; 0x8E].

(** A data frame (frame control 0x08 0x02) carrying the EAPOL tag, with
    [extra] bytes of body after the LLC/SNAP header. *)
Definition eapol_frame (extra : nat) : wifi_promiscuous_pkt_t :=
  {| sig_len := 32 + Z.of_nat extra;
     payload := [0x08; 0x02] ++ replicate 22 0x11 ++ eapol_llc ++ replicate extra 0x5A |}.

Definition sample_frames : list (list Z * timeval) :=
  [ (payload (eapol_frame 3), {| tv_sec := 1700000000; tv_usec := 5 |});
    ([0x08; 0x41; 0x00], {| tv_sec := 1700000001; tv_usec := 70000 |}) ].

(** Nothing is heard and no time passes. *)
Definition silence : schedule :=
  {| before_loop := []; in_loop := []; after_loop := [] |}.

(** Two 10 ms rounds; an EAPOL frame arrives during the first. *)
Definition lossy_sched : schedule :=
  {| before_loop := [];
     in_loop :=
       [ {| rx := [({| tv_sec := 1700000002; tv_usec := 40 |}, eapol_frame 4)];
            elapsed_us := 10000 |};
         {| rx := []; elapsed_us := 10000 |} ];
     after_loop := [] |}.

End Samples.

(** ** What a session leaves behind *)

Module Session.
Import PcapWriter EspWifi HandshakeCapture Ops.

(** The rounds of a schedule during which the loop of step 5 is still
    running: the loop is entered with the clock at [now] and goes round
    once more for as long as the elapsed milliseconds are below the
    duration. *)
Fixpoint played (start_ms duration_ms now : Z) (sched : list round) : list round :=
  match sched with
  | [] => []
  | r :: sched' =>
      if (now `quot` 1000 - start_ms) <? duration_ms
      then r :: played start_ms duration_ms (now + elapsed_us r) sched'
      else []
  end.

(** Whether the schedule lasts until the loop is over. *)
Fixpoint finishes (start_ms duration_ms now : Z) (sched : list round) : bool :=
  if (now `quot` 1000 - start_ms) <? duration_ms then
    match sched with
    | [] => false
    | r :: sched' => finishes start_ms duration_ms (now + elapsed_us r) sched'
    end
  else true.

Definition retained (pkt : wifi_promiscuous_pkt_t) : bool :=
  match snd (promisc_cb_filter pkt) with
  | Some true => true
  | _ => false
  end.

(** The delivered frames the filter keeps, in the order of delivery. *)
Definition kept (evs : list (timeval * wifi_promiscuous_pkt_t))
  : list (timeval * wifi_promiscuous_pkt_t) :=
  List.filter (fun ev => retained (snd ev)) evs.

(** The record of a kept frame: its first [sig_len] bytes, stamped with
    the time of day of its delivery. *)
Definition captured_record (ev : timeval * wifi_promiscuous_pkt_t) : list Z :=
  frame_record (take (Z.to_nat (sig_len (snd ev))) (payload (snd ev)), fst ev).

(** A capture is running into the file [path], which holds [c]; nothing
    is going to fail on the medium. *)
Definition capturing_to (path : string) (c : list Z) (w : world) : Prop :=
  g_capturing w = true
  /\ pcap_file w = Some path
  /\ io_script w = []
  /\ rx_cb (radio w) = Some promisc_cb_fn
  /\ promiscuous (radio w) = true
  /\ fs w !! path = Some c.

(** What neither the callback nor the transmit loop writes to. *)
Definition statics (w : world)
  : list Z * Z * option rx_callback * list http_event :=
  (g_target_bssid w, g_target_channel w, orig_cb w, http_log w).

(** [w'] differs from [w] at most in the files and the I/O script, and
    in the files only by bytes appended to [stream]. *)
Definition appended_to (stream : string) (w w' : world) : Prop :=
  w' = set_io_script (io_script w') (set_fs (fs w') w)
  /\ (forall p, p <> stream -> fs w' !! p = fs w !! p)
  /\ (forall c, fs w !! stream = Some c ->
        exists added, fs w' !! stream = Some (c ++ added))
  /\ (fs w !! stream = None -> fs w' !! stream = None).

(** The files other than [path] are the same in both worlds. *)
Definition others_kept (path : string) (w w' : world) : Prop :=
  forall p, p <> path -> fs w' !! p = fs w !! p.

Definition writer_on (path : string) (w : world) : Prop :=
  pcap_file w = None \/ pcap_file w = Some path.

Definition with_radio_log (l : list radio_call) (r : radio_t) : radio_t :=
  {| promiscuous := promiscuous r; wifi_started := wifi_started r;
     channel := channel r; rx_cb := rx_cb r; sta_mac := sta_mac r;
     radio_log := l |}.

(** What the delivery of a frame leaves alone: everything but the time
    of day, the files and the I/O script. *)
Definition beyond_delivery (w : world)
  : bool * list Z * Z * option rx_callback * option string * Z * radio_t
    * list http_event :=
  (g_capturing w, g_target_bssid w, g_target_channel w, orig_cb w,
   pcap_file w, now_us w, radio w, http_log w).

Definition delivered (w w' : world) : Prop :=
  beyond_delivery w' = beyond_delivery w.

(** The world after [c] has been added to the log of the radio. *)
Definition logged (c : radio_call) (w : world) : world :=
  set_radio (with_radio_log (radio_log (radio w) ++ [c]) (radio w)) w.

(** The outcome of an action, with [f] applied to the world it leaves. *)
Definition outcome_map {A} (f : world -> world) (o : outcome A) : outcome A :=
  match o with
  | Ret a w => Ret a (f w)
  | Undefined => Undefined
  | Pending => Pending
  end.

End Session.

(** ** More sample worlds and frames *)

Module MoreSamples.
Import PcapWriter HandshakeCapture HttpServer Ops Samples.

(** A beacon (management frame) and a data frame that carries IPv4. *)
Definition beacon : wifi_promiscuous_pkt_t :=
  {| sig_len := 40; payload := [0x80; 0x00] ++ replicate 38 0x22 |}.

Definition ip_frame : wifi_promiscuous_pkt_t :=
  {| sig_len := 40;
     payload := [0x08; 0x02] ++ replicate 22 0x11
                ++ [0xAA; 0xAA; 0x03; 0x00; 0x00; 0x00; 0x08; 0x00]
                ++ replicate 8 0x33 |}.

Definition t_at (us : Z) : timeval := {| tv_sec := 1700000003; tv_usec := us |}.

(** An EAPOL frame before the loop is entered; two 10 ms rounds, with a
    beacon and an EAPOL frame in the first and an IPv4 frame in the
    second; an EAPOL frame after the loop. *)
Definition mixed_sched : schedule :=
  {| before_loop := [(t_at 50, eapol_frame 2)];
     in_loop :=
       [ {| rx := [(t_at 100, beacon); (t_at 200, eapol_frame 4)];
            elapsed_us := 10000 |};
         {| rx := [(t_at 300, ip_frame)]; elapsed_us := 10000 |} ];
     after_loop := [(t_at 900, eapol_frame 6)] |}.


End MoreSamples.

(** ** Formatted output *)

(** The conversions of [snprintf] that the pages use, after the C
    library's description of them (the library is not part of this
    repository). *)
Module Printf.

Definition digit_char (d : Z) : ascii :=
  ascii_of_nat (Z.to_nat (if d <? 10 then 48 + d else 87 + d)).

(** The digits of [n] in [base], most significant first, put before
    [acc]; [fuel] bounds their number. *)
Fixpoint digits_of (fuel : nat) (base n : Z) (acc : string) : string :=
  match fuel with
  | O => acc
  | S fuel' =>
      let acc' := String (digit_char (n mod base)) acc in
      if n <? base then acc' else digits_of fuel' base (n / base) acc'
  end.

(** [%u] of an [unsigned int]. *)
Definition fmt_u (n : Z) : string := digits_of 10 10 n "".

(** [%d] of an [int]. *)
Definition fmt_d (n : Z) : string :=
  if n <? 0 then String "-" (fmt_u (- n)) else fmt_u n.

(** [%x] and [%02x] of an [unsigned int]. *)
Definition fmt_x (n : Z) : string := digits_of 8 16 n "".

Definition fmt_02x (n : Z) : string :=
  let s := fmt_x n in
  if (String.length s <? 2)%nat then String "0" s else s.

(** [%s] of a [char] buffer: the characters before the first NUL;
    nothing when the buffer holds no NUL. *)
Fixpoint fmt_s (buf : list ascii) : option string :=
  match buf with
  | [] => None
  | c :: buf' =>
      if (c =? zero)%char then Some ""
      else match fmt_s buf' with
           | Some s => Some (String c s)
           | None => None
           end
  end.

(** The double quote, as a string. *)
Definition dquote : string := String "034" "".

(** [snprintf(dst, size, ...)]: what lands in [dst] of the formatted
    text, at most [size - 1] characters. *)
Definition snprintf (size : nat) (text : string) : string :=
  String.substring 0 (size - 1) text.

End Printf.

(** ** http_server.c: one line of the scan page *)

Module ScanPage.
Import Printf.

(** The fields of [wifi_ap_record_t] that the page reads. *)
Record wifi_ap_record_t := {
  bssid : list Z;        (* uint8_t[6] *)
  ssid : list ascii;     (* uint8_t[33] *)
  ssid_len : Z;
  primary : Z;           (* uint8_t *)
  rssi : Z               (* int8_t *)
}.

(** The characters the loop leaves out: the double quote, [<] and [>]. *)
Definition special (c : ascii) : bool :=
  (c =? "034")%char || (c =? "<")%char || (c =? ">")%char.

(** The loop that copies the SSID into [ssid_esc], from index [j] with
    [pos] characters written; nothing when an index leaves its array. *)
Fixpoint escape_loop (fuel : nat) (ap : wifi_ap_record_t) (j pos : nat)
    (ssid_esc : list ascii) : option (nat * list ascii) :=
  match fuel with
  | O => None
  | S fuel' =>
      if (Z.of_nat j <? ssid_len ap) && (j <? 31)%nat then
        match ssid ap !! j with
        | None => None
        | Some c =>
            if special c then escape_loop fuel' ap (S j) pos ssid_esc
            else if (pos <? length ssid_esc)%nat
                 then escape_loop fuel' ap (S j) (S pos) (<[pos := c]> ssid_esc)
                 else None
        end
      else Some (pos, ssid_esc)
  end.

(** [ssid_esc] after the loop and the closing [ssid_esc[pos] = 0]. *)
Definition escape_ssid (ap : wifi_ap_record_t) : option (list ascii) :=
  match escape_loop 32 ap 0 0 (replicate 64 zero) with
  | Some (pos, ssid_esc) =>
      if (pos <? length ssid_esc)%nat then Some (<[pos := zero]> ssid_esc)
      else None
  | None => None
  end.

(** The six [%02x] conversions of the link, with their colons. *)
Definition bssid_text (b0 b1 b2 b3 b4 b5 : Z) : string :=
  fmt_02x b0 +:+ ":" +:+ fmt_02x b1 +:+ ":" +:+ fmt_02x b2
  +:+ ":" +:+ fmt_02x b3 +:+ ":" +:+ fmt_02x b4 +:+ ":" +:+ fmt_02x b5.

(** The text the format of the link expands to. *)
Definition link_text (ssid_esc : string) (ap_rssi ap_primary : Z)
    (b0 b1 b2 b3 b4 b5 : Z) : string :=
  "<li><a href=" +:+ dquote +:+ "/confirm?ssid=" +:+ ssid_esc
  +:+ "&amp;rssi=" +:+ fmt_d ap_rssi
  +:+ "&amp;chan=" +:+ fmt_d ap_primary
  +:+ "&amp;bssid=" +:+ bssid_text b0 b1 b2 b3 b4 b5
  +:+ dquote +:+ ">" +:+ ssid_esc +:+ "</a></li>".

(** The body of the loop over the access points: [line] as it is handed
    to [httpd_resp_sendstr_chunk]. *)
Definition scan_line (ap : wifi_ap_record_t) : option string :=
  match escape_ssid ap with
  | Some buf =>
      match fmt_s buf, bssid ap with
      | Some ssid_esc, b0 :: b1 :: b2 :: b3 :: b4 :: b5 :: _ =>
          Some (snprintf 256
                  (link_text ssid_esc (rssi ap) (primary ap) b0 b1 b2 b3 b4 b5))
      | _, _ => None
      end
  | None => None
  end.

(** What the arrays and the integer fields of a record can hold. *)
Definition ap_record_ok (ap : wifi_ap_record_t) : Prop :=
  length (bssid ap) = 6%nat
  /\ Forall (fun b => 0 <= b < 256) (bssid ap)
  /\ length (ssid ap) = 33%nat
  /\ 0 <= primary ap < 256
  /\ -128 <= rssi ap < 128.

(** The number of characters of the SSID the loop looks at. *)
Definition scanned (ap : wifi_ap_record_t) : nat :=
  Nat.min (Z.to_nat (ssid_len ap)) 31.

(** Of these, the ones from index [j] on that the loop copies. *)
Definition rest_from (ap : wifi_ap_record_t) (j : nat) : list ascii :=
  List.filter (fun c => negb (special c)) (drop j (take (scanned ap) (ssid ap))).

(** The characters of the SSID that reach the page. *)
Definition escaped (ap : wifi_ap_record_t) : list ascii :=
  List.filter (fun c => negb (special c))
    (take (Nat.min (Z.to_nat (ssid_len ap)) 31) (ssid ap)).

(** The characters of a buffer before its first NUL. *)
Fixpoint until_nul (l : list ascii) : string :=
  match l with
  | [] => ""
  | c :: l' => if (c =? zero)%char then "" else String c (until_nul l')
  end.

End ScanPage.

(** ** Sample access points *)

Module PageSamples.
Import ScanPage Samples.

(** An access point on channel 6 whose SSID holds markup. *)
Definition lab_ap : wifi_ap_record_t :=
  {| bssid := ap;
     ssid := ["m"; "y"; "<"; "l"; "a"; "b"; ">"]%char ++ replicate 26 zero;
     ssid_len := 7; primary := 6; rssi := -47 |}.

End PageSamples.

(** ** http_server.c: the other handlers *)

Module HttpPages.
Import Libc HandshakeCapture HttpServer Printf.

(** The request is not one for [/download]: [strncmp(uri, "/download",
    9) != 0]. *)
Definition not_download (req : httpd_req_t) : Prop :=
  String.eqb (String.substring 0 9 (uri req)) "/download" = false.

(** The answer that sends the browser back to the scan page. *)
Definition redirect_to_scan : list http_event :=
  [RespStatus "302 Found"; RespHdr "Location" "/scan"; RespSend].

Definition root_get_handler (req : httpd_req_t) : M esp_err_t :=
  cleaned <- check_and_clean req ;;
  if cleaned then ret ESP_OK
  else
    http_do (RespStatus "302 Found") ;;
    http_do (RespHdr "Location" "/scan") ;;
    http_do RespSend ;;
    ret ESP_OK.

(** [open(path, O_RDONLY)]: the descriptor, or -1 when the medium fails
    or the file is not there. *)
Definition posix_open (path : string) : M (option string) :=
  o <- next_io ;;
  match o with
  | IoOk =>
      m <- get fs ;;
      ret (match m !! path with Some _ => Some path | None => None end)
  | IoErr _ => ret None
  end.

(** [read(fd, buf, count)] with the descriptor at offset [off]: the
    number of bytes read and the bytes, 0 at the end of the file, -1
    when the medium fails. *)
Definition posix_read (fd : string) (off count : nat) : M (Z * list Z) :=
  o <- next_io ;;
  match o with
  | IoOk =>
      m <- get fs ;;
      let data := take count (drop off (default [] (m !! fd))) in
      ret (Z.of_nat (length data), data)
  | IoErr _ => ret (-1, [])
  end.

(** The [while ((r = read(...)) > 0)] loop of the download handler; the
    chunks handed to [httpd_resp_send_chunk] are collected in order.
    [fuel] bounds the number of reads. *)
Fixpoint read_send_loop (fuel : nat) (fd : string) (off : nat)
    (sent : list (list Z)) : M (list (list Z)) :=
  match fuel with
  | O => fun _ => Pending
  | S fuel' =>
      rb <- posix_read fd off 1024 ;;
      if fst rb >? 0 then
        read_send_loop fuel' fd (off + Z.to_nat (fst rb))
          (sent ++ [take (Z.to_nat (fst rb)) (snd rb)])
      else ret sent
  end.

(** The result, and the body chunks sent on the connection (the last,
    empty one ends the response). *)
Definition download_get_handler (fuel : nat) (req : httpd_req_t)
  : M (esp_err_t * list (list Z)) :=
  ex <- handshake_exists ;;
  if negb ex then
    httpd_resp_send_err 404 "No handshake to download" ;;
    ret (ESP_FAIL, [])
  else
    fd <- posix_open handshake_pcap ;;
    match fd with
    | None =>
        httpd_resp_send_err 500 "Cannot open file" ;;
        ret (ESP_FAIL, [])
    | Some fd =>
        http_do (RespSetType "application/octet-stream") ;;
        http_do (RespHdr "Content-Disposition" "attachment; filename=handshake.pcap") ;;
        chunks <- read_send_loop fuel fd 0 [] ;;
        ret (ESP_OK, chunks ++ [[]])
    end.

Definition confirm_head : string :=
  "<!DOCTYPE html><html><head><meta charset=" +:+ dquote +:+ "UTF-8" +:+ dquote
  +:+ "><title>Confirm</title></head><body>".

(** The text the format of the confirmation expands to. *)
Definition confirm_text (ssid chan_str bssid : string) : string :=
  "<h2>Confirm attack on SSID: <b>" +:+ ssid +:+ "</b> (Channel " +:+ chan_str
  +:+ ")</h2>"
  +:+ "<a href=" +:+ dquote +:+ "/attack?ssid=" +:+ ssid +:+ "&chan=" +:+ chan_str
  +:+ "&bssid=" +:+ bssid +:+ dquote +:+ ">Confirm</a> &nbsp; "
  +:+ "<a href=" +:+ dquote +:+ "/scan" +:+ dquote +:+ ">Go Back</a>".

(** The result, and the body chunks sent on the connection (the last,
    empty one ends the response).  The request holds what
    [httpd_query_key_value] leaves in [ssid[33]], [chan_str[8]] and
    [bssid[18]]; [rssi_str] is read and not used. *)
Definition confirm_get_handler (req : httpd_req_t) : M (esp_err_t * list string) :=
  cleaned <- check_and_clean req ;;
  if cleaned then ret (ESP_OK, [])
  else
    let ssid := query_ssid req in
    let chan_str := query_chan req in
    let bssid := query_bssid req in
    if (String.length ssid =? 0)%nat || negb (String.length bssid =? 17)%nat
    then httpd_resp_send_err 400 "Bad parameters" ;; ret (ESP_FAIL, [])
    else
      http_do (RespSetType "text/html") ;;
      let line := snprintf 256 (confirm_text ssid chan_str bssid) in
      ret (ESP_OK, [confirm_head; line; "</body></html>"; ""]).

End HttpPages.

(** ** wifi_station.c: the address of the station *)

Module WifiStation.
Import Printf.

(** The statics of the file. *)
Record sta_t := {
  s_connected : bool;
  s_ip_str : string      (* char[16] *)
}.

(** [IP2STR]: the four bytes of an IPv4 address, in the order they lie
    in memory. *)
Definition IP2STR (addr : Z) : list Z :=
  [Z.land addr 0xff; Z.land (Z.shiftr addr 8) 0xff;
   Z.land (Z.shiftr addr 16) 0xff; Z.land (Z.shiftr addr 24) 0xff].

Definition dotted_quad (b : list Z) : string :=
  match b with
  | [b0; b1; b2; b3] =>
      fmt_u b0 +:+ "." +:+ fmt_u b1 +:+ "." +:+ fmt_u b2 +:+ "." +:+ fmt_u b3
  | _ => ""
  end.

(** The handler of [IP_EVENT_STA_GOT_IP], for the address [ip] of the
    event. *)
Definition on_ip_event (ip : Z) (st : sta_t) : sta_t :=
  {| s_connected := true;
     s_ip_str := snprintf 16 (dotted_quad (IP2STR ip)) |}.

Definition wifi_get_ip_str (st : sta_t) : string := s_ip_str st.

End WifiStation.

(** ** Proof tools *)

Import Libc PcapWriter EspWifi HandshakeCapture HttpServer Ops Samples Session.

(** Runs the straight-line part of the session on a world. *)
Ltac run_session :=
  cbv [handshake_deauth_and_capture bind get modify ret
       esp_wifi_set_promiscuous esp_wifi_stop esp_wifi_start
       esp_wifi_set_channel esp_wifi_set_promiscuous_rx_cb esp_wifi_get_mac
       esp_timer_get_time radio_do pcap_writer_close fclose
       set_g_capturing set_g_target_bssid set_g_target_channel set_orig_cb
       set_pcap_file set_fs set_io_script set_tod set_now_us set_radio
       set_http_log
       g_capturing g_target_bssid g_target_channel orig_cb pcap_file fs
       io_script tod now_us radio http_log
       promiscuous wifi_started channel rx_cb sta_mac radio_log].

(** Runs the handler up to the call of the capture. *)
Ltac run_handler :=
  cbv [attack_get_handler check_and_clean handshake_exists unlink http_do
       httpd_resp_send_err bind get modify ret
       set_g_capturing set_g_target_bssid set_g_target_channel set_orig_cb
       set_pcap_file set_fs set_io_script set_tod set_now_us set_radio
       set_http_log
       g_capturing g_target_bssid g_target_channel orig_cb pcap_file fs
       io_script tod now_us radio http_log].

(** * Properties *)

(** ** Byte images *)

Section Encoding.

Lemma le32_value x :
  0 <= x < 2^32 ->
  x mod 256 + 2^8 * ((x / 2^8) mod 256) + 2^16 * ((x / 2^16) mod 256)
    + 2^24 * ((x / 2^24) mod 256) = x.
Proof.
  intros Hx.
  change (2^8) with 256. change (2^16) with 65536. change (2^24) with 16777216.
  change (2^32) with 4294967296 in Hx.
  Z.to_euclidean_division_equations. lia.
Qed.

Lemma get_le32_le32 x rest :
  0 <= x < 2^32 -> get_le32 (le32 x ++ rest) 0 = Some x.
Proof.
  intros Hx. unfold get_le32, le32. cbn [drop app].
  f_equal. by apply le32_value.
Qed.

Lemma u32_range x : 0 <= u32 x < 2^32.
Proof. unfold u32. apply Z.mod_pos_bound. lia. Qed.

End Encoding.

(** ** The capture writer *)

Section Writer.

Lemma fwrite_appends ptr size stream w c :
  fs w !! stream = Some c ->
  size <= Z.of_nat (length ptr) ->
  exists n w' added,
    fwrite ptr size stream w = Ret n w'
    /\ pcap_file w' = pcap_file w
    /\ fs w' !! stream = Some (c ++ added)
    /\ (n = 1 -> added = take (Z.to_nat size) ptr).
Proof.
  intros Hc Hlen. unfold fwrite.
  destruct (size =? 0) eqn:E0.
  { exists 0, w, []. rewrite app_nil_r. repeat split; try done. }
  destruct (Z.of_nat (length ptr) <? size) eqn:E1; [lia|].
  unfold bind, next_io.
  destruct (io_script w) as [|[|k] rest]; cbn;
    eexists _, _, _; (split; [reflexivity|]); cbn;
    rewrite lookup_alter_eq, Hc; cbn; repeat split; done.
Qed.

Lemma init_true filename w w' :
  pcap_writer_init filename w = Ret true w' ->
  pcap_file w' = Some filename
  /\ fs w' !! filename = Some (global_header_bytes gh).
Proof.
  destruct w as [cap tb tc ocb pf files script t now rad hl].
  unfold pcap_writer_init, bind, fopen_wb, next_io, fwrite.
  destruct script as [|[|k] [|[|k'] rest]]; cbn;
    try discriminate; intros [= <-]; cbn;
    by rewrite lookup_alter_eq, lookup_insert_eq.
Qed.

Lemma writeFrame_appends bytes ts w filename c :
  pcap_file w = Some filename ->
  fs w !! filename = Some c ->
  exists b w' added,
    writeFrame bytes ts w = Ret b w'
    /\ pcap_file w' = Some filename
    /\ fs w' !! filename = Some (c ++ added)
    /\ (b = true ->
        added = packet_header_bytes
                  {| ts_sec := u32 (tv_sec ts); ts_usec := u32 (tv_usec ts);
                     incl_len := Z.of_nat (length bytes);
                     orig_len := Z.of_nat (length bytes) |} ++ bytes).
Proof.
  intros Hf Hc.
  unfold writeFrame, pcap_writer_write_packet, gettimeofday.
  cbv [bind modify get]. cbn [set_tod pcap_file tod]. rewrite Hf.
  cbv beta iota.
  set (ph := Build_pcap_packet_header_t _ _ _ _).
  destruct (fwrite_appends (packet_header_bytes ph) sizeof_ph filename
              (set_tod ts w) c) as (n1 & w1 & a1 & E1 & P1 & F1 & A1);
    [done | cbn; unfold sizeof_ph; lia |].
  rewrite E1.
  destruct (n1 =? 1) eqn:N1; cbn.
  2:{ exists false, w1, a1. cbn in P1. rewrite P1. repeat split; try done. }
  apply Z.eqb_eq in N1.
  destruct (fwrite_appends bytes (Z.of_nat (length bytes)) filename w1 (c ++ a1))
    as (n2 & w2 & a2 & E2 & P2 & F2 & A2); [done | lia |].
  rewrite E2. cbn in P1.
  destruct (n2 =? 1) eqn:N2; cbn.
  2:{ exists false, w2, (a1 ++ a2). rewrite P2, P1, F2, <- app_assoc.
      repeat split; try done. }
  apply Z.eqb_eq in N2.
  exists true, w2, (a1 ++ a2). rewrite P2, P1, F2, <- app_assoc.
  repeat split; try done. intros _.
  rewrite (A1 N1), (A2 N2), Nat2Z.id, firstn_all.
  reflexivity.
Qed.

Lemma write_frames_appends frames : forall w filename c,
  pcap_file w = Some filename ->
  fs w !! filename = Some c ->
  exists rs w' tail,
    write_frames frames w = Ret rs w'
    /\ pcap_file w' = Some filename
    /\ fs w' !! filename = Some (c ++ tail)
    /\ (Forall (fun b => b = true) rs -> tail = concat (frame_record <$> frames)).
Proof.
  induction frames as [|[bytes ts] frames IH]; intros w filename c Hf Hc.
  { exists [], w, []. rewrite app_nil_r. by repeat split. }
  destruct (writeFrame_appends bytes ts w filename c Hf Hc)
    as (b & w1 & a1 & E1 & P1 & F1 & A1).
  destruct (IH w1 filename (c ++ a1) P1 F1) as (rs & w2 & a2 & E2 & P2 & F2 & A2).
  exists (b :: rs), w2, (a1 ++ a2).
  cbn [write_frames fst snd]. unfold bind at 1. rewrite E1.
  unfold bind at 1. rewrite E2. rewrite app_assoc.
  repeat split; try done.
  intros Hall. apply Forall_cons in Hall as [Hb Hrs].
  cbn [fmap list_fmap concat]. by rewrite (A1 Hb), (A2 Hrs).
Qed.

Lemma frame_record_fields (f : list Z * timeval) :
  Z.of_nat (length (fst f)) < 2^32 ->
  exists hdr,
    frame_record f = hdr ++ fst f
    /\ length hdr = 16%nat
    /\ get_le32 hdr 0 = Some (u32 (tv_sec (snd f)))
    /\ get_le32 hdr 4 = Some (u32 (tv_usec (snd f)))
    /\ get_le32 hdr 8 = Some (Z.of_nat (length (fst f)))
    /\ get_le32 hdr 12 = Some (Z.of_nat (length (fst f))).
Proof.
  intros Hlen. eexists. split; [reflexivity|]. split; [reflexivity|].
  pose proof (u32_range (tv_sec (snd f))).
  pose proof (u32_range (tv_usec (snd f))).
  unfold get_le32, packet_header_bytes, le32; cbn [drop app ts_sec ts_usec incl_len orig_len].
  repeat split; f_equal; apply le32_value; lia.
Qed.

Lemma read_records_step fuel (f : list Z * timeval) rest :
  Z.of_nat (length (fst f)) < 2^32 ->
  read_records (S fuel) (frame_record f ++ rest)
  = recs ← read_records fuel rest; Some (record_of f :: recs).
Proof.
  intros Hlen. destruct f as [data ts]. cbn [fst snd] in *.
  pose proof (u32_range (tv_sec ts)) as Hs.
  pose proof (u32_range (tv_usec ts)) as Hu.
  unfold frame_record, packet_header_bytes, le32, record_of.
  cbn [fst snd ts_sec ts_usec incl_len orig_len app read_records].
  unfold get_le32. cbn [drop].
  rewrite !le32_value by lia. cbn [mbind option_bind].
  change (drop 0 (data ++ rest)) with (data ++ rest). rewrite length_app.
  destruct (Z.ltb_spec (Z.of_nat (length data + length rest)) (Z.of_nat (length data)));
    [lia|].
  rewrite Nat2Z.id, drop_app_length, take_app_length. reflexivity.
Qed.

Lemma read_records_frames frames : forall fuel,
  (length frames <= fuel)%nat ->
  Forall (fun f => Z.of_nat (length (fst f)) < 2^32) frames ->
  read_records fuel (concat (frame_record <$> frames)) = Some (record_of <$> frames).
Proof.
  induction frames as [|f frames IH]; intros fuel Hfuel Hlen.
  - by destruct fuel.
  - destruct fuel as [|fuel]; [cbn in Hfuel; lia|].
    apply Forall_cons in Hlen as [Hf Hrest].
    cbn [fmap list_fmap concat]. rewrite read_records_step by done.
    change (list_fmap _ _ frame_record frames) with (frame_record <$> frames).
    rewrite IH by (cbn in Hfuel; done || lia). reflexivity.
Qed.

Lemma frames_le_concat (frames : list (list Z * timeval)) :
  (length frames <= length (concat (frame_record <$> frames)))%nat.
Proof.
  induction frames as [|f frames IH]; [done|].
  cbn [fmap list_fmap concat length]. rewrite length_app.
  unfold frame_record at 1. rewrite length_app.
  change (length (packet_header_bytes _)) with 16%nat.
  change (list_fmap _ _ frame_record frames) with (frame_record <$> frames).
  lia.
Qed.

End Writer.

(** C3. A successful [pcap_writer_init] leaves a file that is exactly the
    24-byte little-endian global header: magic 0xA1B2C3D4, version 2.4,
    timezone 0, sigfigs 0, snaplen 0x0000FFFF, link type 105.  Whatever
    frames are written afterwards, these 24 bytes stay at the front of
    the file and everything else comes behind them. *)
Theorem init_writes_global_header_once filename w w' :
  pcap_writer_init filename w = Ret true w' ->
  let hdr := [0xD4; 0xC3; 0xB2; 0xA1; 0x02; 0x00; 0x04; 0x00;
              0x00; 0x00; 0x00; 0x00; 0x00; 0x00; 0x00; 0x00;
              0xFF; 0xFF; 0x00; 0x00; 0x69; 0x00; 0x00; 0x00] in
  fs w' !! filename = Some hdr
  /\ length hdr = 24%nat
  /\ get_le32 hdr 0 = Some 0xA1B2C3D4
  /\ get_le16 hdr 4 = Some 2
  /\ get_le16 hdr 6 = Some 4
  /\ get_le32 hdr 8 = Some 0
  /\ get_le32 hdr 12 = Some 0
  /\ get_le32 hdr 16 = Some 0x0000FFFF
  /\ get_le32 hdr 20 = Some 105
  /\ forall frames, exists rs w'' tail,
       write_frames frames w' = Ret rs w''
       /\ fs w'' !! filename = Some (hdr ++ tail).
Proof.
  intros Hinit hdr. apply init_true in Hinit as [Hf Hfs].
  split; [exact Hfs|]. do 8 (split; [reflexivity|]).
  intros frames.
  destruct (write_frames_appends frames w' filename _ Hf Hfs)
    as (rs & w'' & tail & E & _ & F & _).
  by exists rs, w'', tail.
Qed.

Lemma init_writes_global_header_once_witness :
  exists w',
    pcap_writer_init "/spiffs/handshake.pcap" (idle []) = Ret true w'
    /\ fs w' !! "/spiffs/handshake.pcap"
       = Some [0xD4; 0xC3; 0xB2; 0xA1; 0x02; 0x00; 0x04; 0x00;
               0x00; 0x00; 0x00; 0x00; 0x00; 0x00; 0x00; 0x00;
               0xFF; 0xFF; 0x00; 0x00; 0x69; 0x00; 0x00; 0x00].
Proof.
  assert (exists w',
            pcap_writer_init "/spiffs/handshake.pcap" (idle []) = Ret true w')
    as [w' Hopen] by (eexists; vm_compute; reflexivity).
  exists w'. split; [exact Hopen|].
  exact (proj1 (init_writes_global_header_once _ _ _ Hopen)).
Defined.

(** C2. After a successful open, when every [writeFrame] of a sequence
    is accepted, the file is the 24-byte global header followed by one
    record per frame, in the order written; each record is a 16-byte
    header whose [incl_len] and [orig_len] both read back as the payload
    length (and whose first two fields are the timestamp), followed by
    the payload bytes themselves, all of them. *)
Theorem accepted_frames_file_layout filename w0 w1 frames rs w2 :
  pcap_writer_init filename w0 = Ret true w1 ->
  write_frames frames w1 = Ret rs w2 ->
  Forall (fun b => b = true) rs ->
  Forall (fun f => Z.of_nat (length (fst f)) < 2^32) frames ->
  exists recs,
    fs w2 !! filename = Some (global_header_bytes gh ++ concat recs)
    /\ length (global_header_bytes gh) = 24%nat
    /\ Forall2 (fun f rec =>
         exists hdr,
           rec = hdr ++ fst f
           /\ length hdr = 16%nat
           /\ get_le32 hdr 0 = Some (u32 (tv_sec (snd f)))
           /\ get_le32 hdr 4 = Some (u32 (tv_usec (snd f)))
           /\ get_le32 hdr 8 = Some (Z.of_nat (length (fst f)))
           /\ get_le32 hdr 12 = Some (Z.of_nat (length (fst f))))
         frames recs.
Proof.
  intros Hinit Hrun Hacc Hlen.
  apply init_true in Hinit as [Hf Hfs].
  destruct (write_frames_appends frames w1 filename _ Hf Hfs)
    as (rs' & w2' & tail & E & _ & F & T).
  rewrite Hrun in E. injection E as <- <-.
  exists (frame_record <$> frames). rewrite F, (T Hacc).
  split; [reflexivity|]. split; [reflexivity|].
  clear -Hlen. induction Hlen as [|f frames Hf _ IH]; cbn [fmap list_fmap].
  - constructor.
  - constructor; [by apply frame_record_fields | exact IH].
Qed.

Lemma accepted_frames_file_layout_witness :
  exists w1 w2 recs,
    pcap_writer_init "/spiffs/handshake.pcap" (idle []) = Ret true w1
    /\ write_frames sample_frames w1 = Ret [true; true] w2
    /\ fs w2 !! "/spiffs/handshake.pcap"
       = Some (global_header_bytes gh ++ concat recs)
    /\ length recs = 2%nat.
Proof.
  assert (exists w1 w2,
            pcap_writer_init "/spiffs/handshake.pcap" (idle []) = Ret true w1
            /\ write_frames sample_frames w1 = Ret [true; true] w2)
    as (w1 & w2 & H1 & H2)
    by (eexists _, _; split; [vm_compute; reflexivity | vm_compute; reflexivity]).
  destruct (accepted_frames_file_layout _ _ _ _ _ _ H1 H2)
    as (recs & Hfs & _ & Hrecs).
  - repeat constructor.
  - repeat constructor; vm_compute; reflexivity.
  - exists w1, w2, recs. repeat split; try assumption.
    symmetry. exact (Forall2_length _ _ _ Hrecs).
Defined.

(** Read back by a reader of the format, such a file yields the header
    and, in order, one record per frame with both lengths equal to the
    payload length and the payload itself. *)
Corollary accepted_frames_read_back filename w0 w1 frames rs w2 :
  pcap_writer_init filename w0 = Ret true w1 ->
  write_frames frames w1 = Ret rs w2 ->
  Forall (fun b => b = true) rs ->
  Forall (fun f => Z.of_nat (length (fst f)) < 2^32) frames ->
  exists file,
    fs w2 !! filename = Some file
    /\ pcap_read file = Some (global_header_bytes gh, record_of <$> frames).
Proof.
  intros Hinit Hrun Hacc Hlen.
  apply init_true in Hinit as [Hf Hfs].
  destruct (write_frames_appends frames w1 filename _ Hf Hfs)
    as (rs' & w2' & tail & E & _ & F & T).
  rewrite Hrun in E. injection E as <- <-.
  eexists. split; [exact F|]. rewrite (T Hacc).
  unfold pcap_read. rewrite length_app.
  change (length (global_header_bytes gh)) with 24%nat.
  destruct (Nat.ltb_spec (24 + length (concat (frame_record <$> frames))) 24);
    [lia|].
  rewrite (drop_app_length' (global_header_bytes gh)) by reflexivity.
  rewrite (take_app_length' (global_header_bytes gh)) by reflexivity.
  rewrite read_records_frames; [reflexivity | | done].
  pose proof (frames_le_concat frames). lia.
Qed.

(** C10. [pcap_writer_close] is idempotent: once it has run, running it
    again returns without changing anything, writer state and files
    included; and on a writer that was never opened it changes nothing
    either. *)
Theorem close_idempotent w :
  exists w1,
    pcap_writer_close w = Ret tt w1
    /\ pcap_file w1 = None
    /\ fs w1 = fs w
    /\ pcap_writer_close w1 = Ret tt w1
    /\ (pcap_file w = None -> w1 = w).
Proof.
  unfold pcap_writer_close, bind, get, fclose, modify, ret.
  destruct (pcap_file w) as [fp|] eqn:E.
  - exists (set_pcap_file None w). cbn. repeat split; try done.
  - exists w. rewrite E. repeat split; try done.
Qed.

Lemma close_idempotent_witness :
  pcap_file (idle []) = None
  /\ pcap_writer_close (idle []) = Ret tt (idle []).
Proof.
  split; [reflexivity|].
  destruct (close_idempotent (idle [])) as (w1 & E & _ & _ & _ & Hsame).
  rewrite E. f_equal. apply Hsame. reflexivity.
Defined.

(** ** The deauthentication frame *)

(** C4. For 6-byte addresses the frame built by [send_deauth_frame] has
    exactly 26 bytes: byte 0 is 0xC0 (management, deauthentication),
    flags and duration are zero, bytes 4-9 are [dest], bytes 10-15 are
    [src], bytes 16-21 are [bssid], the sequence control is zero and
    bytes 24-25 are the reason code 7 in little endian; and this frame,
    whole, is what goes to the radio. *)
Theorem deauth_frame_shape dest src bssid :
  length dest = 6%nat -> length src = 6%nat -> length bssid = 6%nat ->
  let f := deauth_frame dest src bssid in
  length f = 26%nat
  /\ f !! 0%nat = Some 0xC0
  /\ f !! 1%nat = Some 0
  /\ f !! 2%nat = Some 0 /\ f !! 3%nat = Some 0
  /\ take 6 (drop 4 f) = dest
  /\ take 6 (drop 10 f) = src
  /\ take 6 (drop 16 f) = bssid
  /\ f !! 22%nat = Some 0 /\ f !! 23%nat = Some 0
  /\ f !! 24%nat = Some 0x07 /\ f !! 25%nat = Some 0x00
  /\ get_le16 f 24 = Some 0x0007
  /\ forall w, exists w',
       send_deauth_frame dest src bssid w = Ret tt w'
       /\ radio_log (radio w') = radio_log (radio w) ++ [Tx80211 f].
Proof.
  intros Hd Hs Hb.
  destruct dest as [|d0 [|d1 [|d2 [|d3 [|d4 [|d5 [|]]]]]]]; try discriminate.
  destruct src as [|s0 [|s1 [|s2 [|s3 [|s4 [|s5 [|]]]]]]]; try discriminate.
  destruct bssid as [|b0 [|b1 [|b2 [|b3 [|b4 [|b5 [|]]]]]]]; try discriminate.
  cbv zeta. do 13 (split; [reflexivity|]).
  intros w. eexists. split; reflexivity.
Qed.

Lemma deauth_frame_shape_witness :
  deauth_frame brc (sta_mac radio0) ap
  = [0xC0; 0; 0; 0; 0xff; 0xff; 0xff; 0xff; 0xff; 0xff;
     0x24; 0x6f; 0x28; 0x01; 0x02; 0x03; 0xde; 0xad; 0xbe; 0xef; 0x00; 0x01;
     0; 0; 7; 0]
  /\ length (deauth_frame brc (sta_mac radio0) ap) = 26%nat.
Proof.
  split; [reflexivity|].
  exact (proj1 (deauth_frame_shape brc (sta_mac radio0) ap eq_refl eq_refl eq_refl)).
Defined.

(** ** The frame filter *)

Section Filter.

Lemma snd_rbind {A B} (m : R A) (f : A -> R B) :
  snd (rbind m f) = snd m ≫= (fun a => snd (f a)).
Proof.
  destruct m as [t [a|]]; cbn; [|reflexivity]. by destruct (f a).
Qed.

Lemma rand_true (a b : R bool) :
  snd (rand a b) = Some true <-> snd a = Some true /\ snd b = Some true.
Proof.
  unfold rand. rewrite snd_rbind.
  destruct (snd a) as [[|]|]; cbn; naive_solver.
Qed.

Lemma rand_is_Some (a b : R bool) :
  is_Some (snd a) -> is_Some (snd b) -> is_Some (snd (rand a b)).
Proof.
  unfold rand. rewrite snd_rbind.
  intros [[|] ->] Hb; cbn; [exact Hb | by eexists].
Qed.

Lemma byte_eq_true mem i v :
  snd (byte_eq mem i v) = Some true <-> mem !! i = Some v.
Proof.
  unfold byte_eq. rewrite snd_rbind. cbn.
  destruct (mem !! i) as [b|]; cbn; [|naive_solver].
  split.
  - intros [= Hb]. apply Z.eqb_eq in Hb. by subst.
  - intros [= ->]. by rewrite Z.eqb_refl.
Qed.

Lemma byte_eq_is_Some mem i v :
  (i < length mem)%nat -> is_Some (snd (byte_eq mem i v)).
Proof.
  intros Hi. unfold byte_eq. rewrite snd_rbind. cbn.
  destruct (lookup_lt_is_Some_2 mem i Hi) as [b ->]. by eexists.
Qed.

(** Bits 2 and 3 of the frame control field, which sit in its first
    byte, are the frame type; Data is binary 10. *)
Lemma frame_type_data p0 p1 :
  u8 (Z.land (Z.shiftr (u16 (Z.lor p0 (Z.shiftl p1 8))) 2) 0x3) = 2
  <-> Z.testbit p0 2 = false /\ Z.testbit p0 3 = true.
Proof.
  set (t := Z.land _ 3).
  assert (Ht : 0 <= t < 4).
  { subst t. change 3 with (Z.ones 2). rewrite Z.land_ones by lia.
    apply Z.mod_pos_bound. lia. }
  assert (Hbit : forall i, 0 <= i < 2 -> Z.testbit t i = Z.testbit p0 (i + 2)).
  { intros i Hi. subst t. rewrite Z.land_spec, Z.shiftr_spec by lia.
    unfold u16. rewrite Z.mod_pow2_bits_low by lia.
    rewrite Z.lor_spec, Z.shiftl_spec_low by lia.
    rewrite orb_false_r.
    assert (Z.testbit 3 i = true) as ->; [|by rewrite andb_true_r].
    assert (i = 0 \/ i = 1) as [-> | ->] by lia; reflexivity. }
  pose proof (Hbit 0 ltac:(lia)) as H0. pose proof (Hbit 1 ltac:(lia)) as H1.
  change (0 + 2) with 2 in H0. change (1 + 2) with 3 in H1.
  rewrite <- H0, <- H1.
  unfold u8. rewrite Z.mod_small by lia.
  assert (t = 0 \/ t = 1 \/ t = 2 \/ t = 3) as [-> | [-> | [-> | ->]]] by lia;
    cbn; naive_solver.
Qed.

Lemma llc_region (mem : list Z) a0 a1 a2 a3 a4 a5 a6 a7 :
  (mem !! llc 0 = Some a0 /\ mem !! llc 1 = Some a1 /\ mem !! llc 2 = Some a2
   /\ mem !! llc 3 = Some a3 /\ mem !! llc 4 = Some a4 /\ mem !! llc 5 = Some a5
   /\ mem !! llc 6 = Some a6 /\ mem !! llc 7 = Some a7)
  <-> take 8 (drop 24 mem) = [a0; a1; a2; a3; a4; a5; a6; a7].
Proof.
  unfold llc. rewrite <- !(lookup_drop mem 24).
  destruct (drop 24 mem) as [|x0 [|x1 [|x2 [|x3 [|x4 [|x5 [|x6 [|x7 l]]]]]]]];
    cbn; naive_solver.
Qed.

Lemma filter_unfold pkt :
  snd (promisc_cb_filter pkt)
  = p0 ← payload pkt !! 0%nat;
    p1 ← payload pkt !! 1%nat;
    if negb (u8 (Z.land (Z.shiftr (u16 (Z.lor p0 (Z.shiftl p1 8))) 2) 0x3) =? 2)
    then Some false
    else if sig_len pkt <? 30 then Some false
    else snd (byte_eq (payload pkt) (llc 0) 0xAA &&> byte_eq (payload pkt) (llc 1) 0xAA &&>
              byte_eq (payload pkt) (llc 2) 0x03 &&>
              byte_eq (payload pkt) (llc 3) 0x00 &&> byte_eq (payload pkt) (llc 4) 0x0c &&>
              byte_eq (payload pkt) (llc 5) 0x00 &&>
              byte_eq (payload pkt) (llc 6) 0x88 &&> byte_eq (payload pkt) (llc 7) 0x8e).
Proof.
  unfold promisc_cb_filter. rewrite snd_rbind. cbn [load snd].
  destruct (payload pkt !! 0%nat) as [p0|]; cbn [mbind option_bind]; [|reflexivity].
  rewrite snd_rbind. cbn [load snd].
  destruct (payload pkt !! 1%nat) as [p1|]; cbn [mbind option_bind]; [|reflexivity].
  destruct (negb _); [reflexivity|]. by destruct (sig_len pkt <? 30).
Qed.

Lemma llc_chain_true mem :
  snd (byte_eq mem (llc 0) 0xAA &&> byte_eq mem (llc 1) 0xAA &&>
       byte_eq mem (llc 2) 0x03 &&>
       byte_eq mem (llc 3) 0x00 &&> byte_eq mem (llc 4) 0x0c &&>
       byte_eq mem (llc 5) 0x00 &&>
       byte_eq mem (llc 6) 0x88 &&> byte_eq mem (llc 7) 0x8e) = Some true
  <-> take 8 (drop 24 mem) = [0xAA; 0xAA; 0x03; 0x00; 0x0C; 0x00; 0x88; 0x8E].
Proof.
  rewrite <- llc_region. rewrite !rand_true, !byte_eq_true. reflexivity.
Qed.

Lemma filter_true_iff pkt :
  snd (promisc_cb_filter pkt) = Some true
  <-> (exists p0, payload pkt !! 0%nat = Some p0
                  /\ Z.testbit p0 2 = false /\ Z.testbit p0 3 = true)
      /\ 30 <= sig_len pkt
      /\ take 8 (drop 24 (payload pkt))
         = [0xAA; 0xAA; 0x03; 0x00; 0x0C; 0x00; 0x88; 0x8E].
Proof.
  rewrite filter_unfold.
  destruct (payload pkt !! 0%nat) as [p0|] eqn:E0; cbn [mbind option_bind].
  2:{ split; [discriminate | intros [(p & [=] & _) _]]. }
  destruct (payload pkt !! 1%nat) as [p1|] eqn:E1; cbn [mbind option_bind].
  2:{ split; [discriminate|]. intros (_ & _ & Hllc).
      apply llc_region in Hllc as (H24 & _).
      apply lookup_lt_Some in H24. apply lookup_ge_None in E1.
      unfold llc in H24. lia. }
  pose proof (frame_type_data p0 p1) as Hty.
  destruct (Z.eqb_spec
              (u8 (Z.land (Z.shiftr (u16 (Z.lor p0 (Z.shiftl p1 8))) 2) 0x3)) 2)
    as [Ht|Ht]; cbn [negb].
  2:{ split; [discriminate|]. intros ((p & [= <-] & Hb) & _). tauto. }
  destruct (Z.ltb_spec (sig_len pkt) 30) as [Hl|Hl].
  { split; [discriminate|]. intros (_ & ? & _). lia. }
  rewrite llc_chain_true. split.
  - intros Hllc. repeat split; [|lia|done]. exists p0. tauto.
  - tauto.
Qed.

Lemma filter_defined pkt :
  (32 <= length (payload pkt))%nat -> is_Some (snd (promisc_cb_filter pkt)).
Proof.
  intros Hlen. rewrite filter_unfold.
  destruct (lookup_lt_is_Some_2 (payload pkt) 0) as [p0 ->]; [lia|].
  destruct (lookup_lt_is_Some_2 (payload pkt) 1) as [p1 ->]; [lia|].
  cbn [mbind option_bind].
  destruct (negb _); [by eexists|]. destruct (sig_len pkt <? 30); [by eexists|].
  repeat apply rand_is_Some; apply byte_eq_is_Some; unfold llc; lia.
Qed.

Lemma filter_early_reject pkt :
  (2 <= length (payload pkt))%nat ->
  (exists p0, payload pkt !! 0%nat = Some p0
              /\ ~ (Z.testbit p0 2 = false /\ Z.testbit p0 3 = true))
  \/ sig_len pkt < 30 ->
  snd (promisc_cb_filter pkt) = Some false.
Proof.
  intros Hlen Hwhy. rewrite filter_unfold.
  destruct (lookup_lt_is_Some_2 (payload pkt) 0) as [p0 E0]; [lia|].
  destruct (lookup_lt_is_Some_2 (payload pkt) 1) as [p1 E1]; [lia|].
  rewrite E0, E1. cbn [mbind option_bind].
  pose proof (frame_type_data p0 p1) as Hty.
  destruct (Z.eqb_spec
              (u8 (Z.land (Z.shiftr (u16 (Z.lor p0 (Z.shiftl p1 8))) 2) 0x3)) 2)
    as [Ht|Ht]; cbn [negb]; [|reflexivity].
  destruct (Z.ltb_spec (sig_len pkt) 30) as [Hl|Hl]; [reflexivity|].
  destruct Hwhy as [(p & Hp & Hb)|?]; [|lia].
  rewrite E0 in Hp. injection Hp as <-. tauto.
Qed.

End Filter.

(** C1. The callback keeps a frame exactly as the Frame Classifier of
    the specification says when the frame has fewer than 30 bytes (it is
    turned away) or at least 32 (it is kept exactly when its type is
    Data and its eight bytes at offset 24 are AA AA 03 00 0C 00 88 8E).
    For a frame of 30 or 31 bytes the classifier says no, the frame not
    having eight bytes at offset 24, while the callback compares up to
    offset 31 of the receive buffer: such a frame is kept exactly when
    its type is Data and the buffer, with the bytes behind the frame,
    shows the pattern.  A frame the filter keeps is handed to the writer
    while a capture is running. *)
Theorem short_frame_kept_on_bytes_behind_it pkt :
  0 <= sig_len pkt ->
  (Z.to_nat (sig_len pkt) <= length (payload pkt))%nat ->
  (2 <= length (payload pkt))%nat ->
  (sig_len pkt < 30 ->
     snd (promisc_cb_filter pkt) = Some false /\ ~ classifier_retains pkt)
  /\ (32 <= sig_len pkt ->
     (snd (promisc_cb_filter pkt) = Some true <-> classifier_retains pkt))
  /\ (30 <= sig_len pkt < 32 ->
     ~ classifier_retains pkt
     /\ (snd (promisc_cb_filter pkt) = Some true
         <-> (exists p0, payload pkt !! 0%nat = Some p0
                         /\ Z.testbit p0 2 = false /\ Z.testbit p0 3 = true)
             /\ take 8 (drop 24 (payload pkt))
                = [0xAA; 0xAA; 0x03; 0x00; 0x0C; 0x00; 0x88; 0x8E]))
  /\ (forall w, g_capturing w = true ->
        snd (promisc_cb_filter pkt) = Some true ->
        promisc_cb pkt w
        = (pcap_writer_write_packet (payload pkt) (sig_len pkt) ;; ret tt) w).
Proof.
  intros Hpos Hbuf H2. unfold classifier_retains, frame_bytes.
  split; [|split; [|split]].
  - intros Hshort. split; [apply filter_early_reject; [done | by right]|].
    intros (_ & ? & _). lia.
  - intros Hlong. rewrite filter_true_iff.
    rewrite lookup_take_lt by lia.
    rewrite !take_drop_commute, take_take.
    rewrite Nat.min_l by lia. reflexivity.
  - intros Hmid. split.
    + intros (_ & _ & Hpat). apply (f_equal length) in Hpat.
      rewrite length_take, length_drop, length_take in Hpat.
      cbn [length] in Hpat. lia.
    + rewrite filter_true_iff. intuition lia.
  - intros w Hcap Hkeep. unfold promisc_cb, bind, get.
    by rewrite Hcap, Hkeep.
Qed.

Lemma short_frame_kept_on_bytes_behind_it_witness :
  let pkt :=
    {| sig_len := 30;
       payload := [0x08; 0x02] ++ replicate 22 0x11
                  ++ [0xAA; 0xAA; 0x03; 0x00; 0x0C; 0x00] ++ [0x88; 0x8E] |} in
  length (frame_bytes pkt) = 30%nat
  /\ snd (promisc_cb_filter pkt) = Some true
  /\ ~ classifier_retains pkt.
Proof.
  intros pkt. split; [reflexivity|].
  destruct (short_frame_kept_on_bytes_behind_it pkt) as (_ & _ & Hmid & _);
    [cbn; lia | cbn; lia | cbn; lia |].
  destruct Hmid as [Hno Hiff]; [cbn; lia|].
  split; [|exact Hno]. apply Hiff. split; [|reflexivity].
  exists 0x08. repeat split; reflexivity.
Defined.

(** C9. The filter reads the two frame control bytes before it looks at
    the length, and its length test (30) admits frames that end before
    the last two bytes it compares (offsets 30 and 31).  Every frame,
    however short, has offset 0 read; a 1-byte frame has offsets 0 and
    1 read, the second outside its buffer; a 30-byte Data frame whose
    bytes 24-29 are AA AA 03 00 0C 00 has offset 30 read, outside its
    buffer; and when the receive buffer happens to go on behind such a
    frame, the two bytes behind it decide whether it is kept. *)
Theorem filter_reads_beyond_length :
  let one := {| sig_len := 1; payload := [0x08] |} in
  let thirty :=
    {| sig_len := 30;
       payload := [0x08; 0x02] ++ replicate 22 0x11
                  ++ [0xAA; 0xAA; 0x03; 0x00; 0x0C; 0x00] |} in
  let thirty_in_longer_buffer :=
    {| sig_len := 30; payload := payload thirty ++ [0x88; 0x8E] |} in
  (forall pkt, exists t, fst (promisc_cb_filter pkt) = 0%nat :: t)
  /\ promisc_cb_filter one = ([0; 1]%nat, None)
  /\ promisc_cb_filter thirty
     = ([0; 1; 24; 25; 26; 27; 28; 29; 30]%nat, None)
  /\ length (payload thirty) = 30%nat
  /\ promisc_cb_filter thirty_in_longer_buffer
     = ([0; 1; 24; 25; 26; 27; 28; 29; 30; 31]%nat, Some true).
Proof.
  cbv zeta. split; [|repeat split].
  intros pkt. unfold promisc_cb_filter, rbind at 1, load.
  destruct (payload pkt !! 0%nat) as [p0|]; [|by eexists].
  match goal with |- context [let '(_, _) := ?x in _] => destruct x end.
  by eexists.
Qed.

(** ** The capture session *)

(** C7. Called while [g_capturing] is set, [handshake_deauth_and_capture]
    returns [ESP_ERR_INVALID_STATE] and leaves the whole world as it
    was: target BSSID and channel, writer handle, files, radio. *)
Theorem reentrant_call_rejected bssid channel duration_ms sched w :
  g_capturing w = true ->
  handshake_deauth_and_capture bssid channel duration_ms sched w
  = Ret ESP_ERR_INVALID_STATE w.
Proof.
  intros Hcap. unfold handshake_deauth_and_capture, bind, get.
  by rewrite Hcap.
Qed.

Lemma reentrant_call_rejected_witness :
  let w := set_g_capturing true (idle []) in
  g_capturing w = true
  /\ handshake_deauth_and_capture ap 6 20000 silence w
     = Ret ESP_ERR_INVALID_STATE w.
Proof.
  split; [reflexivity|]. by apply reentrant_call_rejected.
Defined.

(** C5. When the capture file cannot be opened, or its header cannot be
    written, [handshake_deauth_and_capture] returns [ESP_FAIL] straight
    from step 3: promiscuous mode, switched on in step 2, stays on, the
    radio stays on the target channel, and steps 6-8 are not run. *)
Theorem failed_open_leaves_promiscuous bssid channel duration_ms sched :
  (exists w',
     handshake_deauth_and_capture bssid channel duration_ms sched (idle [IoErr 0])
     = Ret ESP_FAIL w'
     /\ promiscuous (radio w') = true
     /\ radio_log (radio w')
        = [SetPromiscuous false; WifiStop; SetChannel channel; WifiStart;
           SetPromiscuous true])
  /\ (exists w',
     handshake_deauth_and_capture bssid channel duration_ms sched
       (idle [IoOk; IoErr 3])
     = Ret ESP_FAIL w'
     /\ promiscuous (radio w') = true
     /\ radio_log (radio w')
        = [SetPromiscuous false; WifiStop; SetChannel channel; WifiStart;
           SetPromiscuous true]).
Proof.
  split; eexists; (split; [vm_compute; reflexivity|]); split; reflexivity.
Qed.

Section Session.


Lemma delivered_trans w1 w2 w3 :
  delivered w1 w2 -> delivered w2 w3 -> delivered w1 w3.
Proof. unfold delivered. congruence. Qed.

Lemma with_radio_log_same r : with_radio_log (radio_log r) r = r.
Proof. by destruct r. Qed.






Lemma u32_quot_le now :
  0 <= now -> 0 <= u32 (now `quot` 1000) /\ 1000 * u32 (now `quot` 1000) <= now.
Proof.
  intros Hnow. unfold u32. rewrite Z.quot_div_nonneg by lia.
  pose proof (Z.mod_pos_bound (now / 1000) (2^32) ltac:(lia)).
  pose proof (Z.mod_le (now / 1000) (2^32) ltac:(apply Z.div_pos; lia) ltac:(lia)).
  pose proof (Z.mul_div_le now 1000 ltac:(lia)). lia.
Qed.

(** The loop is over, at the latest when the rounds are used up, as soon
    as the rounds cover the duration. *)
Lemma total_finishes sched : forall start_ms duration_ms now,
  1000 * (start_ms + duration_ms) <= now + total_elapsed sched ->
  0 <= start_ms -> 0 <= duration_ms ->
  finishes start_ms duration_ms now sched = true.
Proof.
  induction sched as [|r sched IH]; intros start_ms duration_ms now Hcov Hs Hd;
    cbn [finishes]; cbn [total_elapsed foldr] in Hcov;
    destruct (Z.ltb_spec (now `quot` 1000 - start_ms) duration_ms) as [Hlt|_];
    try done.
  - assert (start_ms + duration_ms <= now `quot` 1000); [|lia].
    rewrite Z.quot_div_nonneg by lia. apply Z.div_le_lower_bound; lia.
  - apply IH; [|done|done]. unfold total_elapsed. lia.
Qed.

Lemma played_Forall (P : round -> Prop) sched : forall start_ms duration_ms now,
  Forall P sched -> Forall P (played start_ms duration_ms now sched).
Proof.
  induction sched as [|r sched IH]; intros start_ms duration_ms now Hall;
    cbn [played]; [done|].
  apply Forall_cons in Hall as [Hr Hrest].
  destruct (_ <? _); [|done]. constructor; [done | by apply IH].
Qed.



End Session.

(** ** Deliveries and transmissions do not meet *)

Section Interleaving.

Variable c : radio_call.

Lemma fwrite_logged ptr size stream w :
  fwrite ptr size stream (logged c w)
  = outcome_map (logged c) (fwrite ptr size stream w).
Proof.
  unfold fwrite. destruct (size =? 0); [done|]. destruct (_ <? size); [done|].
  unfold bind, next_io.
  destruct w as [cap tb tc ocb pf files script t now rad hl].
  by destruct script as [|[|k] rest].
Qed.

Lemma write_packet_logged data len w :
  pcap_writer_write_packet data len (logged c w)
  = outcome_map (logged c) (pcap_writer_write_packet data len w).
Proof.
  unfold pcap_writer_write_packet, gettimeofday. cbv [bind get].
  change (pcap_file (logged c w)) with (pcap_file w).
  change (tod (logged c w)) with (tod w).
  destruct (pcap_file w) as [fp|]; [|done].
  set (ph := Build_pcap_packet_header_t _ _ _ _).
  rewrite fwrite_logged.
  destruct (fwrite (packet_header_bytes ph) sizeof_ph fp w) as [n1 w1| |];
    [|done|done].
  cbn [outcome_map]. destruct (negb (n1 =? 1)); [done|].
  rewrite fwrite_logged.
  destruct (fwrite data len fp w1) as [n2 w2| |]; [|done|done].
  cbn [outcome_map]. by destruct (negb (n2 =? 1)).
Qed.

Lemma promisc_cb_logged pkt w :
  promisc_cb pkt (logged c w) = outcome_map (logged c) (promisc_cb pkt w).
Proof.
  unfold promisc_cb. cbv [bind get].
  change (g_capturing (logged c w)) with (g_capturing w).
  destruct (negb (g_capturing w)); [done|].
  destruct (snd (promisc_cb_filter pkt)) as [[|]|]; [|done|done].
  rewrite write_packet_logged.
  by destruct (pcap_writer_write_packet (payload pkt) (sig_len pkt) w).
Qed.

Lemma deliver_all_logged evs : forall w,
  deliver_all evs (logged c w) = outcome_map (logged c) (deliver_all evs w).
Proof.
  induction evs as [|ev evs IH]; intros w; [done|].
  cbn [deliver_all]. unfold deliver. cbv [bind modify get].
  change (set_tod ev.1 (logged c w)) with (logged c (set_tod ev.1 w)).
  change (rx_cb (radio (logged c (set_tod ev.1 w))))
    with (rx_cb (radio (set_tod ev.1 w))).
  change (promiscuous (radio (logged c (set_tod ev.1 w))))
    with (promiscuous (radio (set_tod ev.1 w))).
  destruct (rx_cb (radio (set_tod ev.1 w))) as [[]|]; [|apply IH].
  destruct (promiscuous (radio (set_tod ev.1 w))); [|apply IH].
  rewrite promisc_cb_logged.
  destruct (promisc_cb ev.2 (set_tod ev.1 w)) as [[] w1| |]; [|done|done].
  apply IH.
Qed.

End Interleaving.

Section Untouched.

Lemma fwrite_keeps ptr size stream w n w' :
  fwrite ptr size stream w = Ret n w' -> delivered w w'.
Proof.
  unfold fwrite. destruct (size =? 0); [by intros [= _ <-]|].
  destruct (_ <? size); [done|]. unfold bind, next_io.
  destruct w as [cap tb tc ocb pf files script t now rad hl].
  destruct script as [|[|k] rest]; by intros [= _ <-].
Qed.

Lemma write_packet_keeps data len w b w' :
  pcap_writer_write_packet data len w = Ret b w' -> delivered w w'.
Proof.
  unfold pcap_writer_write_packet, gettimeofday. cbv [bind get].
  destruct (pcap_file w) as [fp|]; [|by intros [= _ <-]].
  set (ph := Build_pcap_packet_header_t _ _ _ _).
  destruct (fwrite (packet_header_bytes ph) sizeof_ph fp w) as [n1 w1| |] eqn:E1;
    [|done|done].
  apply fwrite_keeps in E1.
  destruct (negb (n1 =? 1)); [by intros [= _ <-]|].
  destruct (fwrite data len fp w1) as [n2 w2| |] eqn:E2; [|done|done].
  apply fwrite_keeps in E2. pose proof (delivered_trans _ _ _ E1 E2).
  destruct (negb (n2 =? 1)); by intros [= _ <-].
Qed.

Lemma promisc_cb_keeps pkt w w' :
  promisc_cb pkt w = Ret tt w' -> delivered w w'.
Proof.
  unfold promisc_cb. cbv [bind get].
  destruct (negb (g_capturing w)); [by intros [= <-]|].
  destruct (snd (promisc_cb_filter pkt)) as [[|]|]; [|by intros [= <-]|done].
  destruct (pcap_writer_write_packet (payload pkt) (sig_len pkt) w)
    as [b w1| |] eqn:E; [|done|done].
  intros [= <-]. by apply write_packet_keeps in E.
Qed.

(** Whatever the frames are, a delivery that returns has changed the
    time of day, the files and the I/O script at most. *)
Lemma deliver_all_keeps evs : forall w w',
  deliver_all evs w = Ret tt w' -> delivered w w'.
Proof.
  induction evs as [|ev evs IH]; intros w w'; cbn [deliver_all];
    [by intros [= <-]|].
  unfold deliver. cbv [bind modify get].
  assert (D0 : delivered w (set_tod ev.1 w)) by reflexivity.
  destruct (rx_cb (radio (set_tod ev.1 w))) as [[]|];
    [|intros E; apply IH in E; by apply (delivered_trans _ _ _ D0)].
  destruct (promiscuous (radio (set_tod ev.1 w)));
    [|intros E; apply IH in E; by apply (delivered_trans _ _ _ D0)].
  destruct (promisc_cb ev.2 (set_tod ev.1 w)) as [[] w1| |] eqn:E1; [|done|done].
  apply promisc_cb_keeps in E1. intros E. apply IH in E.
  apply (delivered_trans _ _ _ D0). by apply (delivered_trans _ _ _ E1).
Qed.

End Untouched.

(** Frames delivered before a transmission leave the state that the same
    frames delivered after it leave. *)
Lemma delivery_commutes_with_transmission evs dest src bssid w :
  (deliver_all evs ;; send_deauth_frame dest src bssid) w
  = (send_deauth_frame dest src bssid ;; deliver_all evs) w.
Proof.
  unfold bind, send_deauth_frame, esp_wifi_80211_tx, radio_do, modify.
  set (tx := Tx80211 _).
  change (deliver_all evs (set_radio _ w)) with (deliver_all evs (logged tx w)).
  rewrite deliver_all_logged.
  by destruct (deliver_all evs w) as [[] w1| |].
Qed.

(** The same for the entry of the loop: frames delivered before the
    station's address and the clock are read leave the state, and the
    two values read, that the same frames delivered after it leave. *)
Lemma delivery_commutes_with_loop_entry evs w :
  (deliver_all evs ;;
   esp_mac <- esp_wifi_get_mac ;; now <- esp_timer_get_time ;; ret (esp_mac, now)) w
  = (esp_mac <- esp_wifi_get_mac ;; now <- esp_timer_get_time ;;
     deliver_all evs ;; ret (esp_mac, now)) w.
Proof.
  cbv [bind esp_wifi_get_mac esp_timer_get_time radio_do modify get ret].
  change (deliver_all evs (set_radio _ w)) with (deliver_all evs (logged GetMac w)).
  rewrite deliver_all_logged.
  destruct (deliver_all evs w) as [[] w1| |] eqn:E; [|done|done].
  apply deliver_all_keeps in E. injection E as _ _ _ _ _ N R _.
  cbn [outcome_map]. f_equal.
  change (now_us (set_radio _ w1)) with (now_us w1).
  change (now_us (set_radio _ w)) with (now_us w).
  change (radio (set_radio ?r _)) with r. cbn [sta_mac].
  by rewrite N, R.
Qed.




(** ** The channel range *)

Section Channel.

Lemma never_invalid_arg bssid channel duration_ms sched w e w' :
  handshake_deauth_and_capture bssid channel duration_ms sched w = Ret e w' ->
  e <> ESP_ERR_INVALID_ARG.
Proof.
  destruct w as [cap tb tc ocb pf files script t now rad hl].
  run_session. destruct cap; [by intros [= <- _]|].
  destruct (pcap_writer_init _ _) as [[|] w1| |]; cbn [negb]; try done;
    [|by intros [= <- _]].
  destruct (deliver_all (before_loop sched) _) as [[] w2| |]; try done.
  destruct (deauth_loop _ _ _ _ _) as [[] w3| |]; try done.
  destruct (deliver_all (after_loop sched) _) as [[] w4| |]; try done.
  destruct w4 as [cap4 tb4 tc4 ocb4 pf4 files4 script4 t4 now4 rad4 hl4].
  cbv beta iota. destruct pf4; by intros [= <- _].
Qed.

End Channel.

(** C8, as the code has it.  [handshake_deauth_and_capture] has no
    check of its channel argument and never returns an invalid-argument
    error.  The range 1..13 is enforced by its caller, the [/attack]
    handler: when the channel of the request is outside 1..13 the
    handler returns without calling the capture, so the radio, the
    capture statics, the writer handle and the I/O script are as
    before and no file has been created (at most the old capture file
    has been removed by [check_and_clean]); a request that is otherwise
    well formed, with no old capture file around, gets 400 "Invalid
    channel" and [ESP_FAIL]. *)
Theorem channel_range_checked_by_handler :
  (forall bssid channel duration_ms sched w e w',
      handshake_deauth_and_capture bssid channel duration_ms sched w = Ret e w' ->
      e <> ESP_ERR_INVALID_ARG)
  /\ (forall req sched w,
      atoi (query_chan req) < 1 \/ 13 < atoi (query_chan req) ->
      exists e w',
        attack_get_handler req sched w = Ret e w'
        /\ radio w' = radio w
        /\ g_capturing w' = g_capturing w
        /\ g_target_bssid w' = g_target_bssid w
        /\ g_target_channel w' = g_target_channel w
        /\ pcap_file w' = pcap_file w
        /\ io_script w' = io_script w
        /\ (fs w' = fs w \/ fs w' = delete handshake_pcap (fs w))
        /\ (fs w !! handshake_pcap = None ->
            query_ssid req <> "" -> query_chan req <> "" ->
            String.length (query_bssid req) = 17%nat ->
            e = ESP_FAIL
            /\ http_log w' = http_log w ++ [RespSendErr 400 "Invalid channel"])).
Proof.
  split; [exact never_invalid_arg|].
  intros req sched w Hch.
  assert (Hgate : (atoi (query_chan req) <? 1) || (atoi (query_chan req) >? 13) = true).
  { apply orb_true_iff. rewrite Z.ltb_lt, Z.gtb_gt. lia. }
  destruct w as [cap tb tc ocb pf files script t now rad hl].
  run_handler. rewrite Hgate.
  destruct (files !! handshake_pcap) as [c|] eqn:Efs.
  - destruct (negb (String.eqb _ _));
      [eexists _, _; split; [reflexivity|]; cbn; repeat split; auto; done|].
    destruct (_ || _ || _);
      eexists _, _; (split; [reflexivity|]); cbn; repeat split; auto; done.
  - destruct (_ || _ || _) eqn:Ebad;
      eexists _, _; (split; [reflexivity|]); cbn;
      do 6 (split; [reflexivity|]); (split; [by left|]);
      intros _ Hs Hc Hb; [exfalso | by split].
    destruct (query_ssid req); [done|]. destruct (query_chan req); [done|].
    cbn in Ebad. rewrite Hb in Ebad. done.
Qed.

Lemma channel_range_checked_by_handler_witness :
  let req := {| uri := "/attack"; query_ssid := "lab"; query_chan := "14";
                query_bssid := "DE:AD:BE:EF:00:01" |} in
  atoi (query_chan req) = 14
  /\ exists w',
       attack_get_handler req silence (idle []) = Ret ESP_FAIL w'
       /\ radio w' = radio0
       /\ http_log w' = [RespSendErr 400 "Invalid channel"].
Proof.
  intros req. split; [reflexivity|].
  destruct (proj2 channel_range_checked_by_handler req silence (idle []))
    as (e & w' & E & Hr & _ & _ & _ & _ & _ & _ & Hlast).
  - right. vm_compute. reflexivity.
  - destruct Hlast as [-> Hlog]; [reflexivity | discriminate | discriminate
                                 | reflexivity |].
    exists w'. by repeat split.
Defined.

(** C8, the claim itself, fails: with channel 14, and with channel 0,
    the capture does not return an invalid-argument error; it switches
    the radio to that channel, creates the capture file and returns
    [ESP_OK]. *)
Lemma bad_channel_not_rejected_example :
  (exists w',
     handshake_deauth_and_capture ap 14 0 silence (idle []) = Ret ESP_OK w'
     /\ channel (radio w') = 14
     /\ radio_log (radio w')
        = [SetPromiscuous false; WifiStop; SetChannel 14; WifiStart;
           SetPromiscuous true; SetPromiscuousRxCb (Some promisc_cb_fn); GetMac;
           SetPromiscuous false; SetPromiscuousRxCb None; WifiStop; WifiStart]
     /\ fs w' !! "/spiffs/handshake.pcap" = Some (global_header_bytes gh))
  /\ (exists w',
     handshake_deauth_and_capture ap 0 0 silence (idle []) = Ret ESP_OK w'
     /\ channel (radio w') = 0
     /\ In (SetChannel 0) (radio_log (radio w'))).
Proof.
  split; eexists; (split; [vm_compute; reflexivity|]).
  - repeat split; reflexivity.
  - split; [reflexivity|]. cbn. tauto.
Qed.

(** * Further properties of the code *)

Import Session MoreSamples Printf ScanPage PageSamples HttpPages WifiStation.

Section SessionContent.

Lemma fwrite_ok ptr size stream w :
  io_script w = [] -> 0 < size -> size <= Z.of_nat (length ptr) ->
  fwrite ptr size stream w
  = Ret 1 (set_fs (alter (fun c => c ++ take (Z.to_nat size) ptr) stream (fs w)) w).
Proof.
  intros Hio Hpos Hlen. unfold fwrite.
  destruct (Z.eqb_spec size 0) as [?|_]; [lia|].
  destruct (Z.ltb_spec (Z.of_nat (length ptr)) size) as [?|_]; [lia|].
  unfold bind, next_io. rewrite Hio. reflexivity.
Qed.

Lemma write_packet_ok data len w path c :
  pcap_file w = Some path -> io_script w = [] ->
  0 < len <= Z.of_nat (length data) ->
  fs w !! path = Some c ->
  exists w',
    pcap_writer_write_packet data len w = Ret true w'
    /\ fs w' !! path
       = Some (c ++ frame_record (take (Z.to_nat len) data, tod w))
    /\ w' = set_fs (fs w') w.
Proof.
  intros Hf Hio Hlen Hc.
  unfold pcap_writer_write_packet, gettimeofday. cbv [bind get]. rewrite Hf.
  set (ph := Build_pcap_packet_header_t _ _ _ _).
  rewrite fwrite_ok; [|done|done|cbn; unfold sizeof_ph; lia].
  cbn [negb Z.eqb Pos.eqb].
  rewrite fwrite_ok; [|done|lia|lia].
  cbn [negb Z.eqb Pos.eqb].
  eexists. split; [reflexivity|]. split.
  - cbn [fs set_fs]. rewrite !lookup_alter_eq, Hc. cbn [fmap option_fmap option_map].
    rewrite <- app_assoc. do 3 f_equal.
    unfold frame_record, ph. cbn [fst snd].
    rewrite length_take_le by lia. rewrite Z2Nat.id by lia. reflexivity.
  - destruct w. reflexivity.
Qed.

Lemma retained_true pkt :
  retained pkt = true <-> snd (promisc_cb_filter pkt) = Some true.
Proof.
  unfold retained. destruct (snd (promisc_cb_filter pkt)) as [[|]|]; naive_solver.
Qed.

Lemma promisc_cb_capturing pkt w path c :
  capturing_to path c w -> readable pkt ->
  exists w',
    promisc_cb pkt w = Ret tt w'
    /\ capturing_to path
         (c ++ if retained pkt then captured_record (tod w, pkt) else []) w'
    /\ w' = set_fs (fs w') w.
Proof.
  intros (Hcap & Hf & Hio & Hcb & Hpr & Hc) [[r Hr] Hlen].
  unfold promisc_cb. cbv [bind get]. rewrite Hcap. cbn [negb].
  unfold retained. rewrite Hr. destruct r.
  - apply filter_true_iff in Hr as (_ & H30 & _).
    destruct (write_packet_ok (payload pkt) (sig_len pkt) w path c)
      as (w' & E & F & S); [done|done|lia|done|].
    rewrite E. exists w'. split; [done|]. split; [|done].
    rewrite S. cbn. rewrite S in F. cbn in F. by repeat split.
  - exists w. rewrite app_nil_r. split; [done|]. split; [by repeat split|].
    by destruct w.
Qed.

Lemma deliver_all_capturing evs : forall w path c,
  capturing_to path c w ->
  Forall (fun ev => readable (snd ev)) evs ->
  exists w',
    deliver_all evs w = Ret tt w'
    /\ capturing_to path (c ++ concat (captured_record <$> kept evs)) w'
    /\ now_us w' = now_us w
    /\ radio w' = radio w
    /\ statics w' = statics w.
Proof.
  induction evs as [|[tv pkt] evs IH]; intros w path c Hinv Hall.
  { exists w. cbn [kept List.filter fmap list_fmap concat].
    rewrite app_nil_r. split; [done|]. split; [done|]. by repeat split. }
  apply Forall_cons in Hall as [Hev Hevs]. cbn [snd] in Hev.
  assert (Hinv1 : capturing_to path c (set_tod tv w)).
  { destruct Hinv as (?&?&?&?&?&?). by repeat split. }
  destruct (promisc_cb_capturing pkt (set_tod tv w) path c Hinv1 Hev)
    as (w1 & E1 & Hinv2 & S1).
  destruct (IH w1 path _ Hinv2 Hevs) as (w2 & E2 & Hinv3 & T2 & R2 & B2).
  exists w2. cbn [deliver_all]. unfold bind at 1, deliver.
  cbv [bind modify get]. cbn [fst snd].
  destruct Hinv1 as (_ & _ & _ & Hcb & Hpr & _).
  rewrite Hcb, Hpr, E1, E2. split; [done|].
  rewrite T2, R2, B2, S1. unfold statics.
  cbn [now_us radio g_target_bssid g_target_channel orig_cb http_log set_fs set_tod].
  split; [|done].
  unfold kept. cbn [List.filter snd]. fold (kept evs).
  destruct (retained pkt); cbn [tod set_tod] in Hinv3.
  - cbn [fmap list_fmap concat]. rewrite app_assoc. exact Hinv3.
  - rewrite app_nil_r in Hinv3. exact Hinv3.
Qed.

End SessionContent.

Section SessionLoop.

Lemma kept_app evs1 evs2 : kept (evs1 ++ evs2) = kept evs1 ++ kept evs2.
Proof. unfold kept. apply List.filter_app. Qed.

Lemma capturing_to_radio_log path c w l :
  capturing_to path c w ->
  capturing_to path c (set_radio (with_radio_log l (radio w)) w).
Proof. intros (?&?&?&?&?&?). by repeat split. Qed.

Lemma capturing_to_now path c w t :
  capturing_to path c w -> capturing_to path c (set_now_us t w).
Proof. intros (?&?&?&?&?&?). by repeat split. Qed.

Lemma deauth_loop_capturing sched : forall w start_ms duration_ms esp_mac path c,
  rounds_readable (played start_ms duration_ms (now_us w) sched) ->
  finishes start_ms duration_ms (now_us w) sched = true ->
  capturing_to path c w ->
  let rounds := played start_ms duration_ms (now_us w) sched in
  exists w',
    deauth_loop start_ms duration_ms esp_mac sched w = Ret tt w'
    /\ capturing_to path
         (c ++ concat (captured_record <$> kept (concat (rx <$> rounds)))) w'
    /\ statics w' = statics w
    /\ radio w'
       = with_radio_log
           (radio_log (radio w)
            ++ replicate (length rounds)
                 (Tx80211 (take 26 (deauth_frame brc esp_mac (g_target_bssid w)))))
           (radio w).
Proof.
  induction sched as [|r sched IH];
    intros w start_ms duration_ms esp_mac path c Hrd Hcov Hinv rounds.
  - subst rounds. cbn [deauth_loop played]. cbv [bind esp_timer_get_time get].
    cbn [finishes] in Hcov.
    destruct (now_us w `quot` 1000 - start_ms <? duration_ms); [done|].
    exists w. cbn. rewrite !app_nil_r, with_radio_log_same.
    split; [done|]. split; [done|]. by split.
  - subst rounds. cbn [deauth_loop played]. cbv [bind esp_timer_get_time get].
    cbn [finishes] in Hcov. cbn [played] in Hrd.
    destruct (now_us w `quot` 1000 - start_ms <? duration_ms).
    2:{ exists w. cbn. rewrite !app_nil_r, with_radio_log_same.
        split; [done|]. split; [done|]. by split. }
    apply Forall_cons in Hrd as [Hr Hrest].
    unfold send_deauth_frame, esp_wifi_80211_tx, radio_do, modify.
    set (tx := Tx80211 (take 26 (deauth_frame brc esp_mac (g_target_bssid w)))).
    change (set_radio _ w)
      with (set_radio (with_radio_log (radio_log (radio w) ++ [tx]) (radio w)) w).
    set (w1 := set_radio _ w).
    assert (Hinv1 : capturing_to path c w1) by by apply capturing_to_radio_log.
    destruct (deliver_all_capturing (rx r) w1 path c Hinv1 Hr)
      as (w2 & E2 & Hinv2 & T2 & R2 & B2).
    unfold vTaskDelay, bind at 1, modify. rewrite E2.
    set (w3 := set_now_us _ w2).
    assert (Hinv3 : capturing_to path
                      (c ++ concat (captured_record <$> kept (rx r))) w3)
      by by apply capturing_to_now.
    assert (Hnow3 : now_us w3 = now_us w + elapsed_us r)
      by (subst w3; cbn; rewrite T2; reflexivity).
    rewrite <- Hnow3 in Hcov, Hrest.
    pose proof (IH w3 start_ms duration_ms esp_mac path _ Hrest Hcov Hinv3) as H4.
    cbv zeta in H4. destruct H4 as (w4 & E4 & Hinv4 & B4 & R4).
    exists w4. split; [exact E4|].
    rewrite Hnow3 in Hinv4, R4.
    assert (Hb3 : statics w3 = statics w) by (transitivity (statics w2); [reflexivity | by rewrite B2]).
    assert (Hb3' : g_target_bssid w3 = g_target_bssid w)
      by exact (f_equal (fun s => fst (fst (fst s))) Hb3).
    assert (Hr3 : radio w3 = with_radio_log (radio_log (radio w) ++ [tx]) (radio w))
      by (subst w3; cbn; by rewrite R2).
    split; [|split].
    + cbn [fmap list_fmap concat]. rewrite kept_app, fmap_app, concat_app, app_assoc.
      exact Hinv4.
    + by rewrite B4.
    + rewrite R4, Hb3', Hr3. cbn [length replicate]. unfold with_radio_log. cbn.
      by rewrite <- app_assoc.
Qed.

End SessionLoop.

Section SessionWhole.

Lemma init_on_quiet_medium filename w :
  io_script w = [] ->
  exists files,
    pcap_writer_init filename w
    = Ret true (set_pcap_file (Some filename) (set_fs files w))
    /\ files !! filename = Some (global_header_bytes gh).
Proof.
  destruct w as [cap tb tc ocb pf files script t now rad hl].
  cbn [io_script]. intros ->.
  exists (alter (fun c => c ++ take 24 (global_header_bytes gh)) filename
            (<[filename := []]> files)).
  split; [reflexivity|]. by rewrite lookup_alter_eq, lookup_insert_eq.
Qed.

(** The whole session on a medium that does not fail: the file, the
    radio and the statics it leaves. *)
Lemma session_on_quiet_medium bssid channel duration_ms sched w :
  g_capturing w = false ->
  io_script w = [] ->
  finishes (u32 (now_us w `quot` 1000)) duration_ms (now_us w) (in_loop sched)
  = true ->
  frames_readable (before_loop sched) ->
  rounds_readable
    (played (u32 (now_us w `quot` 1000)) duration_ms (now_us w) (in_loop sched)) ->
  frames_readable (after_loop sched) ->
  let target := memcpy (g_target_bssid w) 0 bssid 6 in
  let rounds :=
    played (u32 (now_us w `quot` 1000)) duration_ms (now_us w) (in_loop sched) in
  let heard := before_loop sched ++ concat (rx <$> rounds) ++ after_loop sched in
  exists w',
    handshake_deauth_and_capture bssid channel duration_ms sched w = Ret ESP_OK w'
    /\ fs w' !! "/spiffs/handshake.pcap"
       = Some (global_header_bytes gh ++ concat (captured_record <$> kept heard))
    /\ radio w'
       = {| promiscuous := false; wifi_started := true; channel := channel;
            rx_cb := None; sta_mac := sta_mac (radio w);
            radio_log :=
              radio_log (radio w)
              ++ [SetPromiscuous false; WifiStop; SetChannel channel; WifiStart;
                  SetPromiscuous true; SetPromiscuousRxCb (Some promisc_cb_fn);
                  GetMac]
              ++ replicate (length rounds)
                   (Tx80211 (take 26 (deauth_frame brc (sta_mac (radio w)) target)))
              ++ [SetPromiscuous false; SetPromiscuousRxCb None; WifiStop;
                  WifiStart] |}
    /\ g_target_bssid w' = target
    /\ g_target_channel w' = channel
    /\ g_capturing w' = false
    /\ pcap_file w' = None
    /\ http_log w' = http_log w.
Proof.
  intros Hcap Hio Hcov Hrb Hrd Hra target rounds heard.
  destruct w as [cap tb tc ocb pf files script t now rad hl].
  cbn in Hcap, Hio, Hcov, Hrd, target, rounds. subst cap script.
  run_session.
  match goal with
  | |- context [pcap_writer_init ?fn ?W] =>
      destruct (init_on_quiet_medium fn W eq_refl) as (files1 & E0 & F0)
  end.
  rewrite E0. cbn [negb]. cbv [set_pcap_file set_fs]. cbn.
  match goal with
  | |- context [deliver_all (before_loop sched) ?W] =>
      destruct (deliver_all_capturing (before_loop sched) W
                  "/spiffs/handshake.pcap" (global_header_bytes gh))
        as (w2 & E2 & Hinv2 & T2 & R2 & B2); [by repeat split | exact Hrb |]
  end.
  rewrite E2.
  destruct w2 as [cap2 tb2 tc2 ocb2 pf2 files2 script2 t2 now2 rad2 hl2].
  destruct Hinv2 as (Hc2 & Hpf2 & Hio2 & _ & _ & Hfs2).
  cbn in Hc2, Hpf2, Hio2, Hfs2, T2, R2, B2.
  injection B2 as -> -> -> ->. subst cap2 pf2 script2 now2 rad2.
  cbv beta iota.
  match goal with
  | |- context [deauth_loop ?s ?d ?m ?sc ?W] =>
      pose proof (deauth_loop_capturing sc W s d m "/spiffs/handshake.pcap"
                    (global_header_bytes gh
                     ++ concat (captured_record <$> kept (before_loop sched)))
                    Hrd) as Hloop
  end.
  cbv zeta in Hloop. cbn [now_us g_target_bssid radio radio_log] in Hloop.
  destruct Hloop as (w3 & E3 & Hinv3 & B3 & R3);
    [done | by repeat split |].
  rewrite E3.
  destruct (deliver_all_capturing (after_loop sched) w3
              "/spiffs/handshake.pcap" _ Hinv3 Hra)
    as (w4 & E4 & Hinv4 & T4 & R4 & B4).
  rewrite E4.
  destruct w4 as [cap4 tb4 tc4 ocb4 pf4 files4 script4 t4 now4 rad4 hl4].
  destruct Hinv4 as (_ & Hpf4 & _ & _ & _ & Hfs4).
  rewrite B3 in B4. rewrite R3 in R4.
  cbn in Hpf4, Hfs4, B4, R4. injection B4 as -> -> -> ->. subst pf4 rad4.
  cbv beta iota.
  eexists. split; [reflexivity|]. cbn.
  split; [|split; [|done]].
  - rewrite Hfs4. subst heard. f_equal.
    rewrite !kept_app, !fmap_app, !concat_app, <- !app_assoc. reflexivity.
  - destruct rad. unfold with_radio_log. cbn. f_equal.
    rewrite <- !app_assoc. reflexivity.
Qed.

End SessionWhole.

(** X1. On a medium that does not fail, a capture that starts from the
    idle state returns [ESP_OK] and leaves in /spiffs/handshake.pcap the
    global header followed by one record for each frame that the filter
    keeps among those delivered while the callback was live: before the
    loop was entered, during the rounds of the loop, and between the end
    of the loop and the switching off of promiscuous mode.  The records
    are in the order of delivery and there is nothing else in the file:
    each record is the first [sig_len] bytes of the frame under the time
    of day of its delivery. *)
Theorem capture_file_holds_kept_frames bssid channel duration_ms sched w :
  g_capturing w = false ->
  io_script w = [] ->
  0 <= now_us w ->
  0 <= duration_ms ->
  1000 * duration_ms <= total_elapsed (in_loop sched) ->
  sched_readable sched ->
  let rounds :=
    played (u32 (now_us w `quot` 1000)) duration_ms (now_us w) (in_loop sched) in
  let heard := before_loop sched ++ concat (rx <$> rounds) ++ after_loop sched in
  exists w',
    handshake_deauth_and_capture bssid channel duration_ms sched w = Ret ESP_OK w'
    /\ fs w' !! "/spiffs/handshake.pcap"
       = Some (global_header_bytes gh ++ concat (captured_record <$> kept heard)).
Proof.
  intros Hcap Hio Hnow Hdur Hcov (Hrb & Hrl & Hra) rounds heard.
  destruct (u32_quot_le _ Hnow) as [Hs0 Hs1].
  destruct (session_on_quiet_medium bssid channel duration_ms sched w Hcap Hio)
    as (w' & E & F & _);
    [apply total_finishes; lia | done | by apply played_Forall | done |].
  by exists w'.
Qed.

Lemma capture_file_holds_kept_frames_witness :
  exists w',
    handshake_deauth_and_capture ap 6 20 mixed_sched (idle []) = Ret ESP_OK w'
    /\ fs w' !! "/spiffs/handshake.pcap"
       = Some (global_header_bytes gh
               ++ frame_record (payload (eapol_frame 2), t_at 50)
               ++ frame_record (payload (eapol_frame 4), t_at 200)
               ++ frame_record (payload (eapol_frame 6), t_at 900)).
Proof.
  destruct (capture_file_holds_kept_frames ap 6 20 mixed_sched (idle []))
    as (w' & E & F).
  - reflexivity.
  - reflexivity.
  - vm_compute. discriminate.
  - lia.
  - vm_compute. discriminate.
  - repeat split; repeat constructor; cbn;
      first [by eexists | vm_compute; discriminate].
  - exists w'. split; [exact E|]. rewrite F. vm_compute. reflexivity.
Defined.

Section Transmissions.

Lemma deauth_frame_26 dest src bssid :
  length dest = 6%nat -> length src = 6%nat -> length bssid = 6%nat ->
  take 26 (deauth_frame dest src bssid) = deauth_frame dest src bssid.
Proof.
  intros Hd Hs Hb.
  destruct dest as [|d0 [|d1 [|d2 [|d3 [|d4 [|d5 [|]]]]]]]; try discriminate.
  destruct src as [|s0 [|s1 [|s2 [|s3 [|s4 [|s5 [|]]]]]]]; try discriminate.
  destruct bssid as [|b0 [|b1 [|b2 [|b3 [|b4 [|b5 [|]]]]]]]; try discriminate.
  reflexivity.
Qed.

Lemma memcpy_whole (dst src : list Z) :
  length dst = 6%nat -> length src = 6%nat -> memcpy dst 0 src 6 = src.
Proof.
  intros Hd Hs. unfold memcpy.
  rewrite take_0, (take_ge src), (drop_ge dst) by lia. by rewrite app_nil_r.
Qed.

(** With sleeps of at least 10 ms the loop goes round fewer than
    [duration_ms / 10 + 1] times. *)
Lemma played_bound sched : forall start_ms duration_ms now,
  Forall (fun r => 10000 <= elapsed_us r) sched ->
  0 <= now -> start_ms <= now `quot` 1000 ->
  10 * Z.of_nat (length (played start_ms duration_ms now sched))
  < Z.max 0 (duration_ms - (now `quot` 1000 - start_ms)) + 10.
Proof.
  induction sched as [|r sched IH]; intros start_ms duration_ms now Hall Hnow Hst;
    cbn [played length]; [lia|].
  destruct (Z.ltb_spec (now `quot` 1000 - start_ms) duration_ms) as [Hlt|Hge];
    cbn [length]; [|lia].
  apply Forall_cons in Hall as [Hr Hrest].
  assert (Hq : now `quot` 1000 + 10 <= (now + elapsed_us r) `quot` 1000).
  { rewrite !Z.quot_div_nonneg by lia.
    replace (now `div` 1000 + 10) with ((now + 10 * 1000) `div` 1000)
      by (rewrite Z.div_add by lia; reflexivity).
    apply Z.div_le_mono; lia. }
  specialize (IH start_ms duration_ms (now + elapsed_us r) Hrest ltac:(lia) ltac:(lia)).
  lia.
Qed.

End Transmissions.

(** X2. On a medium that does not fail, a capture from the idle state
    drives the radio through exactly this sequence: promiscuous off,
    stop, the requested channel, start, promiscuous on, callback
    registered, MAC read; then one transmission per round of the loop,
    each the 26-byte deauthentication frame from the station's own MAC
    to the broadcast address for the requested BSSID; then promiscuous
    off, callback deregistered, stop, start.  It ends with the radio
    started on the requested channel, not promiscuous, without callback,
    and with the BSSID and the channel stored in the statics.  When
    every sleep lasts at least 10 ms, fewer than [duration_ms / 10 + 1]
    frames are transmitted. *)
Theorem session_radio_trace bssid channel duration_ms sched w :
  g_capturing w = false ->
  io_script w = [] ->
  0 <= now_us w ->
  0 <= duration_ms ->
  1000 * duration_ms <= total_elapsed (in_loop sched) ->
  sched_readable sched ->
  length bssid = 6%nat ->
  length (g_target_bssid w) = 6%nat ->
  length (sta_mac (radio w)) = 6%nat ->
  let rounds :=
    played (u32 (now_us w `quot` 1000)) duration_ms (now_us w) (in_loop sched) in
  exists w',
    handshake_deauth_and_capture bssid channel duration_ms sched w = Ret ESP_OK w'
    /\ radio w'
       = {| promiscuous := false; wifi_started := true; channel := channel;
            rx_cb := None; sta_mac := sta_mac (radio w);
            radio_log :=
              radio_log (radio w)
              ++ [SetPromiscuous false; WifiStop; SetChannel channel; WifiStart;
                  SetPromiscuous true; SetPromiscuousRxCb (Some promisc_cb_fn);
                  GetMac]
              ++ replicate (length rounds)
                   (Tx80211 (deauth_frame brc (sta_mac (radio w)) bssid))
              ++ [SetPromiscuous false; SetPromiscuousRxCb None; WifiStop;
                  WifiStart] |}
    /\ g_target_bssid w' = bssid
    /\ g_target_channel w' = channel
    /\ (Forall (fun r => 10000 <= elapsed_us r) (in_loop sched) ->
        10 * Z.of_nat (length rounds) < duration_ms + 10).
Proof.
  intros Hcap Hio Hnow Hdur Hcov (Hrb & Hrl & Hra) Hb Htb Hmac rounds.
  destruct (u32_quot_le _ Hnow) as [Hs0 Hs1].
  destruct (session_on_quiet_medium bssid channel duration_ms sched w Hcap Hio)
    as (w' & E & _ & R & B & C & _);
    [apply total_finishes; lia | done | by apply played_Forall | done |].
  exists w'. split; [exact E|].
  rewrite memcpy_whole in R, B by done.
  rewrite deauth_frame_26 in R by done.
  split; [exact R|]. split; [exact B|]. split; [exact C|].
  intros Hslow. subst rounds.
  pose proof (played_bound (in_loop sched) (u32 (now_us w `quot` 1000))
                duration_ms (now_us w) Hslow Hnow) as Hbound.
  assert (u32 (now_us w `quot` 1000) <= now_us w `quot` 1000).
  { unfold u32. apply Z.mod_le; [|lia].
    rewrite Z.quot_div_nonneg by lia. apply Z.div_pos; lia. }
  lia.
Qed.

Lemma session_radio_trace_witness :
  exists w',
    handshake_deauth_and_capture ap 6 20 mixed_sched (idle []) = Ret ESP_OK w'
    /\ radio_log (radio w')
       = [SetPromiscuous false; WifiStop; SetChannel 6; WifiStart;
          SetPromiscuous true; SetPromiscuousRxCb (Some promisc_cb_fn); GetMac;
          Tx80211 (deauth_frame brc (sta_mac radio0) ap);
          Tx80211 (deauth_frame brc (sta_mac radio0) ap);
          SetPromiscuous false; SetPromiscuousRxCb None; WifiStop; WifiStart].
Proof.
  destruct (session_radio_trace ap 6 20 mixed_sched (idle []))
    as (w' & E & R & _).
  - reflexivity.
  - reflexivity.
  - vm_compute. discriminate.
  - lia.
  - vm_compute. discriminate.
  - repeat split; repeat constructor; cbn;
      first [by eexists | vm_compute; discriminate].
  - reflexivity.
  - reflexivity.
  - reflexivity.
  - exists w'. split; [exact E|]. rewrite R. vm_compute. reflexivity.
Defined.

Section Expired.

Lemma finishes_expired start_ms duration_ms now sched :
  duration_ms <= now `quot` 1000 - start_ms ->
  finishes start_ms duration_ms now sched = true
  /\ played start_ms duration_ms now sched = [].
Proof.
  intros Hexp.
  destruct sched; cbn [finishes played];
    destruct (Z.ltb_spec (now `quot` 1000 - start_ms) duration_ms); try lia; done.
Qed.

End Expired.

(** X3. [start_ms] is the millisecond clock cut to 32 bits.  Once the
    clock has passed 2^32 ms (49.7 days of uptime), the difference to
    the clock is at least 2^32 and so above every [uint32_t] duration:
    the loop body never runs.  Whatever the rounds of the schedule, the
    call transmits no frame and returns [ESP_OK]; the file holds the
    header and the records of the frames kept among those delivered
    before and after the loop that did not run. *)
Theorem capture_after_clock_wrap_sends_nothing bssid channel duration_ms sched w :
  g_capturing w = false ->
  io_script w = [] ->
  2^32 <= now_us w `quot` 1000 ->
  0 <= duration_ms < 2^32 ->
  frames_readable (before_loop sched) ->
  frames_readable (after_loop sched) ->
  exists w',
    handshake_deauth_and_capture bssid channel duration_ms sched w = Ret ESP_OK w'
    /\ fs w' !! "/spiffs/handshake.pcap"
       = Some (global_header_bytes gh
               ++ concat (captured_record
                            <$> kept (before_loop sched ++ after_loop sched)))
    /\ radio_log (radio w')
       = radio_log (radio w)
         ++ [SetPromiscuous false; WifiStop; SetChannel channel; WifiStart;
             SetPromiscuous true; SetPromiscuousRxCb (Some promisc_cb_fn); GetMac;
             SetPromiscuous false; SetPromiscuousRxCb None; WifiStop; WifiStart].
Proof.
  intros Hcap Hio Hwrap Hdur Hrb Hra.
  assert (Hexp : duration_ms
                 <= now_us w `quot` 1000 - u32 (now_us w `quot` 1000)).
  { unfold u32.
    pose proof (Z.mod_pos_bound (now_us w `quot` 1000) (2^32) ltac:(lia)).
    pose proof (Z.div_mod (now_us w `quot` 1000) (2^32) ltac:(lia)) as Hdm.
    assert (1 <= (now_us w `quot` 1000) `div` 2^32)
      by (apply Z.div_le_lower_bound; lia).
    nia. }
  destruct (finishes_expired _ _ (now_us w) (in_loop sched) Hexp) as [Hfin Hplayed].
  pose proof (session_on_quiet_medium bssid channel duration_ms sched w
                Hcap Hio Hfin Hrb) as Hrun.
  cbv zeta in Hrun. rewrite Hplayed in Hrun.
  destruct Hrun as (w' & E & F & R & _); [constructor | exact Hra |].
  exists w'. split; [exact E|]. split.
  - rewrite F. reflexivity.
  - rewrite R. reflexivity.
Qed.

Lemma capture_after_clock_wrap_sends_nothing_witness :
  let w := set_now_us (4294967296000 + 123456) (idle []) in
  exists w',
    handshake_deauth_and_capture ap 6 20000 mixed_sched w = Ret ESP_OK w'
    /\ fs w' !! "/spiffs/handshake.pcap"
       = Some (global_header_bytes gh
               ++ frame_record (payload (eapol_frame 2), t_at 50)
               ++ frame_record (payload (eapol_frame 6), t_at 900))
    /\ radio_log (radio w')
       = [SetPromiscuous false; WifiStop; SetChannel 6; WifiStart;
          SetPromiscuous true; SetPromiscuousRxCb (Some promisc_cb_fn); GetMac;
          SetPromiscuous false; SetPromiscuousRxCb None; WifiStop; WifiStart].
Proof.
  intros w.
  destruct (capture_after_clock_wrap_sends_nothing ap 6 20000 mixed_sched w)
    as (w' & E & F & R).
  - reflexivity.
  - reflexivity.
  - vm_compute. discriminate.
  - lia.
  - repeat constructor; cbn; first [by eexists | vm_compute; discriminate].
  - repeat constructor; cbn; first [by eexists | vm_compute; discriminate].
  - exists w'. split; [exact E|]. split; [rewrite F | rewrite R];
      vm_compute; reflexivity.
Defined.

(** ** What the writer and the session leave alone *)

Section Frame.

Lemma bind_inv {A B} (m : M A) (f : A -> M B) w b w' :
  bind m f w = Ret b w' -> exists a w1, m w = Ret a w1 /\ f a w1 = Ret b w'.
Proof. unfold bind. destruct (m w) as [a w1| |]; [eauto | done | done]. Qed.

Lemma appended_to_refl stream w : appended_to stream w w.
Proof.
  split; [by destruct w|]. split; [done|]. split; [|done].
  intros c Hc. exists []. by rewrite app_nil_r.
Qed.

Lemma appended_to_trans stream w1 w2 w3 :
  appended_to stream w1 w2 -> appended_to stream w2 w3 -> appended_to stream w1 w3.
Proof.
  intros (S1 & O1 & A1 & N1) (S2 & O2 & A2 & N2). split; [|split; [|split]].
  - rewrite S2 at 1. rewrite S1 at 1. by destruct w1.
  - intros p Hp. by rewrite O2, O1.
  - intros c Hc. destruct (A1 c Hc) as [a1 H1]. destruct (A2 _ H1) as [a2 H2].
    exists (a1 ++ a2). by rewrite H2, app_assoc.
  - intros Hn. auto.
Qed.

Lemma fwrite_inv ptr size stream w n w' :
  fwrite ptr size stream w = Ret n w' ->
  (n = 0 \/ n = 1) /\ appended_to stream w w'.
Proof.
  unfold fwrite. destruct (size =? 0).
  { intros [= <- <-]. split; [by left | apply appended_to_refl]. }
  destruct (_ <? size); [done|].
  unfold bind, next_io.
  destruct w as [cap tb tc ocb pf files script t now rad hl].
  destruct script as [|[|k] rest]; cbn; intros [= <- <-];
    (split; [by auto|]); (split; [reflexivity|]); cbn;
    (split; [intros p Hp; by rewrite lookup_alter_ne|]);
    (split; [intros c Hc; rewrite lookup_alter_eq, Hc; by eexists
            | intros Hn; by rewrite lookup_alter_eq, Hn]).
Qed.

End Frame.

Section WriterEdges.

Lemma write_packet_inv data len w b w' :
  pcap_writer_write_packet data len w = Ret b w' ->
  match pcap_file w with
  | Some fp => appended_to fp w w'
  | None => w' = w /\ b = false
  end.
Proof.
  unfold pcap_writer_write_packet, gettimeofday. cbv [bind get].
  destruct (pcap_file w) as [fp|]; [|by intros [= <- <-]].
  set (ph := Build_pcap_packet_header_t _ _ _ _).
  destruct (fwrite (packet_header_bytes ph) sizeof_ph fp w) as [n1 w1| |] eqn:E1;
    [|done|done].
  apply fwrite_inv in E1 as [_ A1].
  destruct (negb (n1 =? 1)); [by intros [= <- <-]|].
  destruct (fwrite data len fp w1) as [n2 w2| |] eqn:E2; [|done|done].
  apply fwrite_inv in E2 as [_ A2].
  pose proof (appended_to_trans _ _ _ _ A1 A2).
  destruct (negb (n2 =? 1)); by intros [= <- <-].
Qed.

End WriterEdges.

Section InitSpec.

Lemma init_spec filename w :
  exists b w',
    pcap_writer_init filename w = Ret b w'
    /\ pcap_file w' = (if b then Some filename else None)
    /\ (forall p, p <> filename -> fs w' !! p = fs w !! p)
    /\ w' = set_pcap_file (pcap_file w')
              (set_io_script (io_script w') (set_fs (fs w') w)).
Proof.
  destruct w as [cap tb tc ocb pf files script t now rad hl].
  unfold pcap_writer_init, bind, fopen_wb, next_io, fwrite.
  destruct script as [|[|k] [|[|k'] rest]]; cbn;
    eexists _, _; (split; [reflexivity|]); cbn;
    (split; [reflexivity|]); (split; [|reflexivity]);
    intros p Hp; rewrite ?lookup_alter_ne, ?lookup_insert_ne by done; done.
Qed.

End InitSpec.

(** X4. The result of [pcap_writer_init] tells the state of the handle:
    after [true] the writer is open on the file named, after [false] it
    is closed, also when the file could be created and only the header
    could not be written.  No file other than the one named changes,
    and apart from the files, the I/O script and the writer's handle the
    world stays as it was. *)
Theorem init_result_tells_handle filename w b w' :
  pcap_writer_init filename w = Ret b w' ->
  pcap_file w' = (if b then Some filename else None)
  /\ (forall p, p <> filename -> fs w' !! p = fs w !! p)
  /\ w' = set_pcap_file (pcap_file w')
            (set_io_script (io_script w') (set_fs (fs w') w)).
Proof.
  intros Hrun. destruct (init_spec filename w) as (b0 & w0 & E & H).
  rewrite Hrun in E. injection E as <- <-. exact H.
Qed.

Lemma init_result_tells_handle_witness :
  exists w',
    pcap_writer_init "/spiffs/handshake.pcap" (idle [IoOk; IoErr 7]) = Ret false w'
    /\ pcap_file w' = None
    /\ fs w' !! "/spiffs/handshake.pcap"
       = Some [0xD4; 0xC3; 0xB2; 0xA1; 0x02; 0x00; 0x04].
Proof.
  assert (exists w',
    pcap_writer_init "/spiffs/handshake.pcap" (idle [IoOk; IoErr 7]) = Ret false w'
    /\ fs w' !! "/spiffs/handshake.pcap"
       = Some [0xD4; 0xC3; 0xB2; 0xA1; 0x02; 0x00; 0x04])
    as (w' & E & F)
    by (eexists; split; [vm_compute; reflexivity | reflexivity]).
  exists w'. split; [exact E|]. split; [|exact F].
  exact (proj1 (init_result_tells_handle _ _ _ _ E)).
Defined.

(** X5. [pcap_writer_write_packet] only ever appends to the file the
    writer is open on: whatever the medium does, the handle stays as it
    was, every other file is untouched, what the file held before is
    still its beginning, and nothing else in the world changes except
    the I/O script.  With no file open it returns [false] and changes
    nothing at all. *)
Theorem write_packet_only_appends data len w b w' :
  pcap_writer_write_packet data len w = Ret b w' ->
  pcap_file w' = pcap_file w
  /\ w' = set_io_script (io_script w') (set_fs (fs w') w)
  /\ (forall p c, fs w !! p = Some c ->
        exists added, fs w' !! p = Some (c ++ added)
                      /\ (pcap_file w <> Some p -> added = []))
  /\ (forall p, fs w !! p = None -> fs w' !! p = None)
  /\ (pcap_file w = None -> b = false /\ w' = w).
Proof.
  intros Hrun. apply write_packet_inv in Hrun.
  destruct (pcap_file w) as [fp|] eqn:Hpf.
  - destruct Hrun as (S & O & A & N).
    split; [rewrite S; cbn; done|]. split; [exact S|]. split; [|split; [|done]].
    + intros p c Hc. destruct (decide (p = fp)) as [->|Hne].
      * destruct (A c Hc) as [added Ha]. exists added. split; [done|]. congruence.
      * exists []. rewrite app_nil_r, O by done. done.
    + intros p Hn. destruct (decide (p = fp)) as [->|Hne]; [auto|].
      by rewrite O.
  - destruct Hrun as [-> ->]. rewrite Hpf.
    split; [done|]. split; [by destruct w|]. split; [|done].
    intros p c Hc. exists []. by rewrite app_nil_r.
Qed.

Lemma write_packet_only_appends_witness :
  exists w1 w2,
    pcap_writer_init "/spiffs/handshake.pcap" (idle [IoOk; IoOk; IoOk; IoErr 5])
    = Ret true w1
    /\ pcap_writer_write_packet (payload (eapol_frame 4)) 36 w1 = Ret false w2
    /\ pcap_file w2 = Some "/spiffs/handshake.pcap"
    /\ exists added,
         fs w2 !! "/spiffs/handshake.pcap" = Some (global_header_bytes gh ++ added).
Proof.
  assert (exists w1 w2,
    pcap_writer_init "/spiffs/handshake.pcap" (idle [IoOk; IoOk; IoOk; IoErr 5])
    = Ret true w1
    /\ pcap_writer_write_packet (payload (eapol_frame 4)) 36 w1 = Ret false w2
    /\ pcap_file w1 = Some "/spiffs/handshake.pcap"
    /\ fs w1 !! "/spiffs/handshake.pcap" = Some (global_header_bytes gh))
    as (w1 & w2 & E1 & E2 & P1 & F1)
    by (eexists _, _; split; [vm_compute; reflexivity|];
        split; [vm_compute; reflexivity|]; split; reflexivity).
  destruct (write_packet_only_appends _ _ _ _ _ E2) as (P & _ & A & _).
  destruct (A _ _ F1) as (added & Ha & _).
  exists w1, w2. repeat split; try done; [congruence | by exists added].
Defined.

(** X6. Nothing is taken back from a record whose payload cannot be
    written.  When the header write succeeds and the payload write fails
    after [k] bytes, the call returns [false] and the file has grown by
    the complete 16-byte record header, which announces [len] bytes,
    followed by fewer than [len] bytes of payload. *)
Theorem failed_payload_leaves_record_header data len k w filename c rest :
  pcap_file w = Some filename ->
  fs w !! filename = Some c ->
  io_script w = IoOk :: IoErr k :: rest ->
  0 < len <= Z.of_nat (length data) ->
  exists w' part,
    pcap_writer_write_packet data len w = Ret false w'
    /\ fs w' !! filename
       = Some (c ++ le32 (u32 (tv_sec (tod w))) ++ le32 (u32 (tv_usec (tod w)))
                 ++ le32 len ++ le32 len ++ part)
    /\ part = take (k `min` (Z.to_nat len - 1)) data
    /\ Z.of_nat (length part) < len
    /\ io_script w' = rest.
Proof.
  intros Hf Hc Hio Hlen.
  destruct w as [cap tb tc ocb pf files script t now rad hl].
  cbn in Hf, Hc, Hio. subst pf script.
  unfold pcap_writer_write_packet, gettimeofday, fwrite.
  cbv [bind get next_io modify ret]. cbn [pcap_file tod io_script set_io_script].
  destruct (Z.eqb_spec len 0) as [?|_]; [lia|].
  destruct (Z.ltb_spec (Z.of_nat (length data)) len) as [?|_]; [lia|].
  cbn. eexists _, _. split; [reflexivity|]. cbn.
  rewrite !lookup_alter_eq, Hc. cbn.
  split; [by rewrite <- !app_assoc|]. split; [reflexivity|]. split; [|done].
  rewrite length_take. lia.
Qed.

Lemma failed_payload_leaves_record_header_witness :
  exists w1 w2,
    pcap_writer_init "/spiffs/handshake.pcap" (idle [IoOk; IoOk; IoOk; IoErr 5])
    = Ret true w1
    /\ pcap_writer_write_packet (payload (eapol_frame 4)) 36 w1 = Ret false w2
    /\ fs w2 !! "/spiffs/handshake.pcap"
       = Some (global_header_bytes gh ++ le32 1700000000 ++ le32 250
               ++ le32 36 ++ le32 36 ++ [0x08; 0x02; 0x11; 0x11; 0x11]).
Proof.
  assert (exists w1,
    pcap_writer_init "/spiffs/handshake.pcap" (idle [IoOk; IoOk; IoOk; IoErr 5])
    = Ret true w1
    /\ pcap_file w1 = Some "/spiffs/handshake.pcap"
    /\ fs w1 !! "/spiffs/handshake.pcap" = Some (global_header_bytes gh)
    /\ io_script w1 = [IoOk; IoErr 5]
    /\ tod w1 = {| tv_sec := 1700000000; tv_usec := 250 |})
    as (w1 & E1 & P1 & F1 & S1 & T1)
    by (eexists; split; [vm_compute; reflexivity|]; repeat split; reflexivity).
  destruct (failed_payload_leaves_record_header (payload (eapol_frame 4)) 36 5
              w1 _ _ [] P1 F1 S1) as (w2 & part & E2 & F2 & -> & _).
  - vm_compute. split; [reflexivity | discriminate].
  - exists w1, w2. split; [done|]. split; [done|]. rewrite F2, T1. reflexivity.
Defined.

Section SessionFrame.

Lemma promisc_cb_others pkt w w' path :
  writer_on path w -> promisc_cb pkt w = Ret tt w' ->
  writer_on path w' /\ others_kept path w w'.
Proof.
  intros Hon. unfold promisc_cb. cbv [bind get].
  destruct (negb (g_capturing w)); [by intros [= <-]|].
  destruct (snd (promisc_cb_filter pkt)) as [[|]|]; [|by intros [= <-]|done].
  destruct (pcap_writer_write_packet (payload pkt) (sig_len pkt) w)
    as [b w1| |] eqn:E; [|done|done].
  intros [= <-]. apply write_packet_inv in E.
  destruct Hon as [Hn|Hs].
  - rewrite Hn in E. destruct E as [-> _]. split; [by left|done].
  - rewrite Hs in E. destruct E as (S & O & _). split; [|exact O].
    right. rewrite S. exact Hs.
Qed.

Lemma deliver_all_others evs : forall w w' path,
  writer_on path w -> deliver_all evs w = Ret tt w' ->
  writer_on path w' /\ others_kept path w w'.
Proof.
  induction evs as [|ev evs IH]; intros w w' path Hon; cbn [deliver_all].
  { intros [= <-]. by split. }
  intros Hrun. apply bind_inv in Hrun as ([] & w1 & E1 & E2).
  unfold deliver in E1. cbv [bind modify get] in E1.
  assert (Hstep : writer_on path w1 /\ others_kept path w w1).
  { destruct (rx_cb _) as [[]|]; [|injection E1 as <-; by split].
    destruct (promiscuous _); [|injection E1 as <-; by split].
    apply promisc_cb_others with (path := path) in E1; [exact E1 | exact Hon]. }
  destruct Hstep as [Hon1 O1].
  destruct (IH _ _ _ Hon1 E2) as [Hon2 O2].
  split; [done|]. intros p Hp. by rewrite O2, O1.
Qed.

Lemma deauth_loop_others sched : forall w w' start_ms duration_ms esp_mac path,
  writer_on path w ->
  deauth_loop start_ms duration_ms esp_mac sched w = Ret tt w' ->
  writer_on path w' /\ others_kept path w w'.
Proof.
  induction sched as [|r sched IH];
    intros w w' start_ms duration_ms esp_mac path Hon;
    cbn [deauth_loop]; cbv [bind esp_timer_get_time get];
    destruct (_ <? duration_ms); try done; try (intros [= <-]; by split).
  unfold send_deauth_frame, esp_wifi_80211_tx, radio_do, modify, vTaskDelay.
  cbv [bind].
  match goal with
  | |- context [deliver_all (rx r) ?W] =>
      destruct (deliver_all (rx r) W) as [[] w2| |] eqn:E2; [|done|done];
        apply deliver_all_others with (path := path) in E2 as [Hon2 O2];
        [|exact Hon]
  end.
  intros Hrun. apply IH with (path := path) in Hrun as [Hon3 O3]; [|exact Hon2].
  split; [done|]. intros p Hp. rewrite O3, O2 by done. reflexivity.
Qed.

End SessionFrame.

(** X7. Whatever the medium and the radio deliver, and whatever the
    call returns, [handshake_deauth_and_capture] changes no file other
    than /spiffs/handshake.pcap. *)
Theorem session_touches_only_capture_file
    bssid channel duration_ms sched w e w' p :
  handshake_deauth_and_capture bssid channel duration_ms sched w = Ret e w' ->
  p <> "/spiffs/handshake.pcap" ->
  fs w' !! p = fs w !! p.
Proof.
  intros Hrun Hp.
  destruct w as [cap tb tc ocb pf files script t now rad hl].
  revert Hrun. run_session. destruct cap; [by intros [= _ <-]|].
  match goal with
  | |- context [pcap_writer_init ?fn ?W] =>
      destruct (init_spec fn W) as (b & w1 & E0 & P0 & O0 & _)
  end.
  rewrite E0. specialize (O0 p Hp). cbn in O0.
  destruct b; cbn [negb]; [|intros [= _ <-]; exact O0].
  destruct w1 as [cap1 tb1 tc1 ocb1 pf1 files1 script1 t1 now1 rad1 hl1].
  cbn in P0, O0. subst pf1. cbv beta iota.
  match goal with
  | |- context [deliver_all (before_loop sched) ?W] =>
      destruct (deliver_all (before_loop sched) W) as [[] w2| |] eqn:E2;
        [|done|done];
        apply deliver_all_others with (path := "/spiffs/handshake.pcap") in E2
          as [On2 O2]; [|by right]
  end.
  specialize (O2 p Hp). cbn in O2.
  destruct w2 as [cap2 tb2 tc2 ocb2 pf2 files2 script2 t2 now2 rad2 hl2].
  cbn in O2. cbv beta iota.
  match goal with
  | |- context [deauth_loop ?s ?d ?m ?sc ?W] =>
      destruct (deauth_loop s d m sc W) as [[] w3| |] eqn:E3; [|done|done];
        apply deauth_loop_others with (path := "/spiffs/handshake.pcap") in E3
          as [On3 O3]; [|exact On2]
  end.
  specialize (O3 p Hp). cbn in O3.
  destruct (deliver_all (after_loop sched) w3) as [[] w4| |] eqn:E4; [|done|done].
  apply deliver_all_others with (path := "/spiffs/handshake.pcap") in E4
    as [_ O4]; [|exact On3].
  specialize (O4 p Hp).
  destruct w4 as [cap4 tb4 tc4 ocb4 pf4 files4 script4 t4 now4 rad4 hl4].
  cbn in O4. cbv beta iota.
  destruct pf4; intros [= _ <-]; cbn; congruence.
Qed.

Lemma session_touches_only_capture_file_witness :
  let w := set_fs {[ "/spiffs/notes.txt" := [1; 2; 3] ]} (idle [IoOk; IoOk; IoErr 0]) in
  exists e w',
    handshake_deauth_and_capture ap 6 20 lossy_sched w = Ret e w'
    /\ fs w' !! "/spiffs/notes.txt" = Some [1; 2; 3].
Proof.
  intros w.
  assert (exists e w', handshake_deauth_and_capture ap 6 20 lossy_sched w = Ret e w')
    as (e & w' & E) by (eexists _, _; vm_compute; reflexivity).
  exists e, w'. split; [exact E|].
  rewrite (session_touches_only_capture_file _ _ _ _ _ _ _ "/spiffs/notes.txt" E);
    [reflexivity | discriminate].
Defined.

(** ** The handlers *)

Section Download.

Lemma take_drop_length {A} (l : list A) n :
  take n l ++ drop (length (take n l)) l = l.
Proof.
  destruct (decide (n <= length l)%nat).
  - rewrite length_take_le by done. apply take_drop.
  - rewrite take_ge by lia. by rewrite drop_all, app_nil_r.
Qed.

Lemma read_send_loop_spec fuel fd content : forall off sent w,
  fs w !! fd = Some content ->
  (length content - off < fuel)%nat ->
  exists chunks w',
    read_send_loop fuel fd off sent w = Ret (sent ++ chunks) w'
    /\ (exists rest, drop off content = concat chunks ++ rest)
    /\ Forall (fun c => (0 < length c <= 1024)%nat) chunks
    /\ w' = set_io_script (io_script w') w
    /\ (Forall (fun o => o = IoOk) (io_script w) -> concat chunks = drop off content).
Proof.
  induction fuel as [|fuel IH]; intros off sent w Hc Hfuel; [lia|].
  cbn [read_send_loop]. unfold posix_read. cbv [bind next_io get ret].
  destruct w as [cap tb tc ocb pf files script t now rad hl]. cbn in Hc.
  set (data := take 1024 (drop off content)).
  assert (Hsplit : drop off content = data ++ drop (off + length data) content).
  { subst data. rewrite <- drop_drop. symmetry. apply take_drop_length. }
  assert (Hdata : (length data <= 1024)%nat)
    by (subst data; rewrite length_take; lia).
  assert (Hstep : forall w1 : world, fs w1 !! fd = Some content ->
            exists chunks w',
              (if Z.of_nat (length data) >? 0
               then read_send_loop fuel fd (off + Z.to_nat (Z.of_nat (length data)))
                      (sent ++ [take (Z.to_nat (Z.of_nat (length data))) data])
               else ret sent) w1 = Ret (sent ++ chunks) w'
              /\ (exists rest, drop off content = concat chunks ++ rest)
              /\ Forall (fun c => (0 < length c <= 1024)%nat) chunks
              /\ w' = set_io_script (io_script w') w1
              /\ (Forall (fun o => o = IoOk) (io_script w1) ->
                  concat chunks = drop off content)).
  { intros w1 Hc1. rewrite Nat2Z.id, firstn_all.
    destruct (Z.gtb_spec (Z.of_nat (length data)) 0) as [Hpos|Hzero].
    - destruct (IH (off + length data)%nat (sent ++ [data]) w1 Hc1)
        as (chunks & w' & E & [rest Hrest] & Hsz & Hw & Hall);
        [assert (length data <= length content - off)%nat
           by (subst data; rewrite length_take, length_drop; lia); lia|].
      exists (data :: chunks), w'. rewrite E, <- app_assoc.
      split; [done|]. split; [|split; [|split; [done|]]].
      + exists rest. cbn [concat]. by rewrite Hsplit, Hrest, app_assoc.
      + constructor; [lia | done].
      + intros Hok. cbn [concat]. by rewrite Hsplit, (Hall Hok).
    - exists [], w1. rewrite app_nil_r. split; [done|].
      assert (data = []) as Hnil by (apply length_zero_iff_nil; lia).
      split; [by exists (drop off content)|]. split; [constructor|].
      split; [by destruct w1|]. intros _. cbn.
      symmetry. apply length_zero_iff_nil.
      assert (length data = 0%nat) as Hl by by rewrite Hnil.
      subst data. rewrite length_take in Hl. lia. }
  destruct script as [|[|k] script]; cbn [io_script set_io_script fs].
  - rewrite Hc. cbn [default]. fold data. cbn [fst snd].
    apply (Hstep (Build_world cap tb tc ocb pf files [] t now rad hl) Hc).
  - rewrite Hc. cbn [default]. fold data. cbn [fst snd].
    destruct (Hstep (Build_world cap tb tc ocb pf files script t now rad hl) Hc)
      as (chunks & w' & E & Hp & Hsz & Hw & Hall).
    exists chunks, w'. split; [exact E|]. split; [done|]. split; [done|].
    split; [rewrite Hw at 1; reflexivity|].
    intros Hok. apply Forall_cons in Hok as [_ Hok]. by apply Hall.
  - cbn. exists [], (Build_world cap tb tc ocb pf files script t now rad hl).
    rewrite app_nil_r. split; [done|]. split; [by eexists|]. split; [constructor|].
    split; [done|]. intros Hok. by apply Forall_cons in Hok as [[=] _].
Qed.

End Download.

(** X8. When the capture file exists and can be opened, the download
    handler answers with the octet-stream headers and returns [ESP_OK];
    the body chunks it sends are non-empty, at most 1024 bytes each, and
    their concatenation is a beginning of the file: the whole file when
    the medium never fails, a shorter beginning when a read fails, which
    is not reported.  The files are left as they were, and so is
    everything but the response and the I/O script. *)
Theorem download_sends_file fuel req w content :
  fs w !! handshake_pcap = Some content ->
  (length content < fuel)%nat ->
  (forall k rest, io_script w <> IoErr k :: rest) ->
  exists chunks w',
    download_get_handler fuel req w = Ret (ESP_OK, chunks ++ [[]]) w'
    /\ (exists rest, content = concat chunks ++ rest)
    /\ Forall (fun c => (0 < length c <= 1024)%nat) chunks
    /\ (Forall (fun o => o = IoOk) (io_script w) -> concat chunks = content)
    /\ http_log w'
       = http_log w
         ++ [RespSetType "application/octet-stream";
             RespHdr "Content-Disposition" "attachment; filename=handshake.pcap"]
    /\ w' = set_http_log (http_log w') (set_io_script (io_script w') w).
Proof.
  intros Hc Hfuel Hopen.
  destruct w as [cap tb tc ocb pf files script t now rad hl]. cbn in Hc, Hopen.
  unfold download_get_handler, handshake_exists, posix_open, http_do,
    httpd_resp_send_err.
  cbv [bind get ret modify next_io].
  cbn [set_http_log set_io_script g_capturing g_target_bssid g_target_channel
       orig_cb pcap_file fs io_script tod now_us radio http_log].
  rewrite Hc. cbn [negb].
  destruct script as [|[|k] script]; [| |by destruct (Hopen k script)];
    cbn [set_http_log set_io_script g_capturing g_target_bssid g_target_channel
         orig_cb pcap_file fs io_script tod now_us radio http_log];
    rewrite Hc;
    match goal with
    | |- context [read_send_loop fuel handshake_pcap 0 [] ?W] =>
        destruct (read_send_loop_spec fuel handshake_pcap content 0 [] W)
          as (chunks & w' & E & Hp & Hsz & Hw & Hall);
          [exact Hc | lia |]
    end;
    cbn [app] in E; rewrite E; exists chunks, w';
    (split; [reflexivity|]); (split; [exact Hp|]); (split; [exact Hsz|]);
    cbn [io_script] in Hall |- *;
    (split; [intros Hok; apply Hall;
             first [exact Hok | by apply Forall_cons in Hok as [_ ?]]|]);
    rewrite Hw; cbn; (split; [by rewrite <- app_assoc | reflexivity]).
Qed.

Lemma download_sends_file_witness :
  let w := set_fs {[ handshake_pcap := replicate 1100 0x5A ]} (idle []) in
  let req := {| uri := "/download"; query_ssid := ""; query_chan := "";
                query_bssid := "" |} in
  exists w',
    download_get_handler 1101 req w
    = Ret (ESP_OK, [replicate 1024 0x5A; replicate 76 0x5A; []]) w'
    /\ fs w' = fs w.
Proof.
  intros w req.
  assert (exists w',
    download_get_handler 1101 req w
    = Ret (ESP_OK, [replicate 1024 0x5A; replicate 76 0x5A; []]) w') as [w' E]
    by (eexists; vm_compute; reflexivity).
  exists w'. split; [exact E|].
  destruct (download_sends_file 1101 req w (replicate 1100 0x5A))
    as (chunks & w0 & E0 & _ & _ & _ & _ & Hw).
  - reflexivity.
  - rewrite length_replicate. lia.
  - intros k rest. discriminate.
  - rewrite E in E0. injection E0 as _ <-. rewrite Hw. reflexivity.
Defined.

Section Cleanup.

Lemma check_and_clean_spec req w :
  not_download req ->
  check_and_clean req w
  = match fs w !! handshake_pcap with
    | Some _ =>
        Ret true (set_http_log (http_log w ++ redirect_to_scan)
                    (set_fs (delete handshake_pcap (fs w)) w))
    | None => Ret false w
    end.
Proof.
  unfold not_download. intros Hnd.
  destruct w as [cap tb tc ocb pf files script t now rad hl].
  unfold check_and_clean, handshake_exists, unlink, http_do.
  cbv [bind get ret modify]. cbn [fs]. rewrite Hnd. cbn [negb].
  destruct (files !! handshake_pcap); [|reflexivity].
  cbn. by rewrite <- !app_assoc.
Qed.

End Cleanup.

(** X9. The root handler always answers with the redirect to [/scan]
    and [ESP_OK], and after it no capture file is left: an existing one
    is deleted on the way.  Nothing else changes. *)
Theorem root_redirects_and_cleans req w :
  not_download req ->
  root_get_handler req w
  = Ret ESP_OK (set_http_log (http_log w ++ redirect_to_scan)
                  (set_fs (delete handshake_pcap (fs w)) w)).
Proof.
  intros Hnd. unfold root_get_handler, bind at 1.
  rewrite check_and_clean_spec by done.
  destruct (fs w !! handshake_pcap) eqn:Hfs; [reflexivity|].
  unfold http_do. cbv [bind modify ret].
  rewrite delete_id by done.
  destruct w. cbn. by rewrite <- !app_assoc.
Qed.

Lemma root_redirects_and_cleans_witness :
  let req := {| uri := "/"; query_ssid := ""; query_chan := ""; query_bssid := "" |} in
  let w := set_fs {[ handshake_pcap := [1; 2; 3] ]} (idle []) in
  exists w',
    root_get_handler req w = Ret ESP_OK w'
    /\ fs w' !! handshake_pcap = None
    /\ http_log w' = redirect_to_scan.
Proof.
  intros req w. eexists. split; [by apply root_redirects_and_cleans|].
  split; reflexivity.
Defined.

(** X10. While a capture file is waiting to be downloaded, [/attack]
    does not attack: whatever its parameters, the handler deletes the
    file, answers with the redirect to [/scan], returns [ESP_OK] and
    leaves the radio and everything else alone. *)
Theorem attack_drops_pending_capture req sched w c :
  not_download req ->
  fs w !! handshake_pcap = Some c ->
  attack_get_handler req sched w
  = Ret ESP_OK (set_http_log (http_log w ++ redirect_to_scan)
                  (set_fs (delete handshake_pcap (fs w)) w)).
Proof.
  intros Hnd Hfs. unfold attack_get_handler, bind at 1.
  rewrite check_and_clean_spec by done. by rewrite Hfs.
Qed.

Lemma attack_drops_pending_capture_witness :
  let req := {| uri := "/attack"; query_ssid := "lab"; query_chan := "6";
                query_bssid := "de:ad:be:ef:00:01" |} in
  let w := set_fs {[ handshake_pcap := global_header_bytes gh ]} (idle []) in
  exists w',
    attack_get_handler req lossy_sched w = Ret ESP_OK w'
    /\ fs w' !! handshake_pcap = None
    /\ radio w' = radio0.
Proof.
  intros req w. eexists.
  split; [by apply (attack_drops_pending_capture req lossy_sched w
                      (global_header_bytes gh))|].
  split; reflexivity.
Defined.

Section AttackRuns.


End AttackRuns.



Section Formats.

Lemma byte_cases (P : Z -> Prop) :
  Forall P (seqZ 0 256) -> forall b, 0 <= b < 256 -> P b.
Proof.
  intros H b Hb. rewrite Forall_forall in H. apply H, elem_of_seqZ. lia.
Qed.

Lemma int8_cases (P : Z -> Prop) :
  Forall P (seqZ (-128) 256) -> forall b, -128 <= b < 128 -> P b.
Proof.
  intros H b Hb. rewrite Forall_forall in H. apply H, elem_of_seqZ. lia.
Qed.

(** A byte printed with [%02x] and followed by a colon is read back by
    [%x], which stops at the colon. *)
Lemma scan_x_fmt_02x_colon b :
  0 <= b < 256 ->
  forall rest, scan_x (fmt_02x b +:+ String ":" rest) = Some (b, String ":" rest).
Proof.
  revert b.
  apply (byte_cases (fun b => forall rest,
           scan_x (fmt_02x b +:+ String ":" rest) = Some (b, String ":" rest))).
  let l := eval vm_compute in (seqZ 0 256) in change (seqZ 0 256) with l.
  repeat (constructor; [intros rest; vm_compute; reflexivity|]).
  constructor.
Qed.

Lemma scan_x_fmt_02x_end b :
  0 <= b < 256 -> scan_x (fmt_02x b) = Some (b, "").
Proof.
  revert b. apply (byte_cases (fun b => scan_x (fmt_02x b) = Some (b, ""))). let l := eval vm_compute in (seqZ 0 256) in change (seqZ 0 256) with l.
  repeat (constructor; [vm_compute; reflexivity|]).
  constructor.
Qed.

Lemma fmt_02x_length b : 0 <= b < 256 -> String.length (fmt_02x b) = 2%nat.
Proof.
  revert b. apply (byte_cases (fun b => String.length (fmt_02x b) = 2%nat)). let l := eval vm_compute in (seqZ 0 256) in change (seqZ 0 256) with l.
  repeat (constructor; [vm_compute; reflexivity|]).
  constructor.
Qed.

Lemma atoi_fmt_d_byte n : 0 <= n < 256 -> atoi (fmt_d n) = n.
Proof.
  revert n. apply (byte_cases (fun n => atoi (fmt_d n) = n)). let l := eval vm_compute in (seqZ 0 256) in change (seqZ 0 256) with l.
  repeat (constructor; [vm_compute; reflexivity|]).
  constructor.
Qed.

Lemma fmt_d_byte_length n :
  0 <= n < 256 -> (1 <= String.length (fmt_d n) <= 3)%nat.
Proof.
  revert n. apply (byte_cases (fun n => (1 <= String.length (fmt_d n) <= 3)%nat)). let l := eval vm_compute in (seqZ 0 256) in change (seqZ 0 256) with l.
  repeat (constructor; [vm_compute; lia|]).
  constructor.
Qed.

Lemma fmt_d_int8_length n :
  -128 <= n < 128 -> (String.length (fmt_d n) <= 4)%nat.
Proof.
  revert n. apply (int8_cases (fun n => (String.length (fmt_d n) <= 4)%nat)). let l := eval vm_compute in (seqZ (-128) 256) in change (seqZ (-128) 256) with l.
  repeat (constructor; [vm_compute; lia|]).
  constructor.
Qed.

Lemma append_cons x (a b : string) : String x a +:+ b = String x (a +:+ b).
Proof. reflexivity. Qed.

Lemma append_nil (b : string) : "" +:+ b = b.
Proof. reflexivity. Qed.

Lemma append_assoc (a b c : string) : (a +:+ b) +:+ c = a +:+ (b +:+ c).
Proof. induction a as [|x a IH]; [done|]. rewrite !append_cons. by f_equal. Qed.

Lemma append_length (a b : string) :
  String.length (a +:+ b) = (String.length a + String.length b)%nat.
Proof.
  induction a as [|x a IH]; [done|]. rewrite append_cons. cbn [String.length].
  by rewrite IH.
Qed.

Lemma substring_whole n : forall s,
  (String.length s <= n)%nat -> String.substring 0 n s = s.
Proof.
  induction n as [|n IH]; intros [|c s] H; cbn in *; try done; try lia.
  f_equal. apply IH. lia.
Qed.

(** The BSSID as the scan page prints it is 17 characters long and is
    read back by the six [%x] of the attack handler. *)
Lemma bssid_text_round_trip b0 b1 b2 b3 b4 b5 :
  Forall (fun b => 0 <= b < 256) [b0; b1; b2; b3; b4; b5] ->
  String.length (bssid_text b0 b1 b2 b3 b4 b5) = 17%nat
  /\ sscanf_x 6 (bssid_text b0 b1 b2 b3 b4 b5) = Some [b0; b1; b2; b3; b4; b5].
Proof.
  intros H. repeat (apply Forall_cons in H; destruct H as [? H]).
  unfold bssid_text. split.
  - rewrite !append_length, !fmt_02x_length by done. reflexivity.
  - rewrite ?append_cons, ?append_nil. cbn [sscanf_x].
    repeat (rewrite scan_x_fmt_02x_colon by done; cbn [fmap option_fmap option_map]).
    rewrite scan_x_fmt_02x_end by done. reflexivity.
Qed.

End Formats.

Section Escape.

Variable ap : wifi_ap_record_t.

Lemma escape_guard j :
  (Z.of_nat j <? ssid_len ap) && (j <? 31)%nat = bool_decide (j < scanned ap)%nat.
Proof.
  unfold scanned. case_bool_decide as H.
  - apply andb_true_iff. split; [apply Z.ltb_lt | apply Nat.ltb_lt]; lia.
  - apply andb_false_iff.
    destruct (decide (Z.of_nat j < ssid_len ap)) as [H1|H1].
    + right. apply Nat.ltb_ge. lia.
    + left. apply Z.ltb_ge. lia.
Qed.

(** The loop from index [j] on: it writes the characters that are left
    and not special from [pos] on, and leaves every array in bounds. *)
Lemma escape_loop_spec : forall fuel j pos buf,
  (scanned ap <= length (ssid ap))%nat ->
  (j <= scanned ap)%nat -> (scanned ap - j < fuel)%nat ->
  (pos + (scanned ap - j) <= length buf)%nat ->
  escape_loop fuel ap j pos buf
  = Some ((pos + length (rest_from ap j))%nat,
          take pos buf ++ rest_from ap j ++ drop (pos + length (rest_from ap j)) buf).
Proof.
  induction fuel as [|fuel IH]; intros j pos buf Hn Hj Hfuel Hbuf; [lia|].
  cbn [escape_loop]. rewrite escape_guard. case_bool_decide as Hlt.
  - assert (Hc : is_Some (ssid ap !! j)) by (apply lookup_lt_is_Some; lia).
    destruct Hc as [c Hc]. rewrite Hc.
    assert (Hd : drop j (take (scanned ap) (ssid ap))
                 = c :: drop (S j) (take (scanned ap) (ssid ap))).
    { apply drop_S. by rewrite lookup_take_lt by lia. }
    unfold rest_from at 1 2 3. rewrite Hd. cbn [List.filter].
    fold (rest_from ap (S j)).
    assert (Hle : (length (rest_from ap (S j)) <= scanned ap - S j)%nat).
    { unfold rest_from. etrans; [apply List.filter_length_le|].
      rewrite length_drop, length_take. lia. }
    destruct (special c); cbn [negb].
    + rewrite IH by lia. reflexivity.
    + assert (Hpos : (pos < length buf)%nat) by lia.
      apply Nat.ltb_lt in Hpos as Hpos'. rewrite Hpos'.
      rewrite IH by (rewrite ?length_insert; lia).
      f_equal. f_equal; [cbn [length]; lia|].
      rewrite (take_S_r _ _ c) by (by apply list_lookup_insert_eq).
      rewrite take_insert_ge by lia.
      rewrite drop_insert_lt by lia.
      rewrite <- app_assoc. cbn [length app].
      by replace (pos + S (length (rest_from ap (S j))))%nat
        with (S pos + length (rest_from ap (S j)))%nat by lia.
  - assert (j = scanned ap) as -> by lia.
    unfold rest_from. rewrite drop_ge by (rewrite length_take; lia).
    cbn [List.filter length app]. rewrite Nat.add_0_r.
    by rewrite take_drop.
Qed.

Lemma escaped_length : (length (escaped ap) <= 31)%nat.
Proof.
  unfold escaped. etrans; [apply List.filter_length_le|].
  rewrite length_take. lia.
Qed.

Lemma escape_ssid_spec :
  length (ssid ap) = 33%nat ->
  escape_ssid ap
  = Some (escaped ap ++ replicate (64 - length (escaped ap)) zero).
Proof.
  intros Hlen. unfold escape_ssid.
  rewrite escape_loop_spec by (rewrite ?length_replicate; unfold scanned; lia).
  assert (He : rest_from ap 0 = escaped ap)
    by (unfold rest_from, scanned; by rewrite drop_0).
  rewrite He. pose proof escaped_length as Hb.
  rewrite take_0, drop_replicate. cbn [app Nat.add].
  rewrite length_app, length_replicate.
  replace (length (escaped ap) <? length (escaped ap) + (64 - length (escaped ap)))%nat
    with true by (symmetry; apply Nat.ltb_lt; lia).
  f_equal. apply list_insert_id.
  rewrite lookup_app_r by lia. rewrite Nat.sub_diag.
  apply lookup_replicate_2. lia.
Qed.

End Escape.

Section Line.

Lemma fmt_s_padded : forall l k,
  (0 < k)%nat -> fmt_s (l ++ replicate k zero) = Some (until_nul l).
Proof.
  induction l as [|c l IH]; intros k Hk.
  - destruct k; [lia|]. reflexivity.
  - cbn [app fmt_s until_nul]. destruct (c =? zero)%char; [done|].
    by rewrite IH.
Qed.

Lemma until_nul_length l : (String.length (until_nul l) <= length l)%nat.
Proof.
  induction l as [|c l IH]; [done|]. cbn [until_nul length].
  destruct (c =? zero)%char; cbn [String.length]; lia.
Qed.

End Line.

(** X12. The loop that prepares an SSID for the scan page copies, in
    order, the first [min(ssid_len, 31)] characters of the SSID except
    the double quote, [<] and [>], never leaves the 33 bytes of the SSID
    or the 64 bytes of [ssid_esc], and leaves the rest of [ssid_esc]
    zero; at most 31 characters are copied and none of them is one of
    the three. *)
Theorem escape_copies_all_but_markup ap :
  length (ssid ap) = 33%nat ->
  escape_ssid ap = Some (escaped ap ++ replicate (64 - length (escaped ap)) zero)
  /\ (length (escaped ap) <= 31)%nat
  /\ Forall (fun c => special c = false) (escaped ap).
Proof.
  intros Hlen. split; [by apply escape_ssid_spec|].
  split; [apply escaped_length|].
  unfold escaped. apply List.Forall_forall. intros c Hc.
  apply List.filter_In in Hc as [_ Hc].
  by apply negb_true_iff.
Qed.

Lemma escape_copies_all_but_markup_witness :
  escape_ssid lab_ap = Some (["m"; "y"; "l"; "a"; "b"]%char ++ replicate 59 zero).
Proof.
  destruct (escape_copies_all_but_markup lab_ap) as [E _]; [reflexivity|].
  rewrite E. reflexivity.
Defined.

Section LineLength.

Lemma link_text_length esc r p b0 b1 b2 b3 b4 b5 :
  (String.length esc <= 31)%nat ->
  -128 <= r < 128 -> 0 <= p < 256 ->
  Forall (fun b => 0 <= b < 256) [b0; b1; b2; b3; b4; b5] ->
  (String.length (link_text esc r p b0 b1 b2 b3 b4 b5) <= 155)%nat.
Proof.
  intros He Hr Hp Hb.
  destruct (bssid_text_round_trip _ _ _ _ _ _ Hb) as [H17 _].
  pose proof (fmt_d_int8_length r Hr). pose proof (fmt_d_byte_length p Hp).
  unfold link_text. rewrite !append_length, H17. cbn [String.length dquote]. lia.
Qed.

End LineLength.

(** X13. For every record of a scan, the line of the scan page is the
    whole link: the 256 bytes of [line] are never too few, so [snprintf]
    cuts nothing off, whatever the SSID, the signal strength, the
    channel and the BSSID are.  The SSID appears as far as the loop
    copied it and up to its first NUL. *)
Theorem scan_line_is_never_cut ap b0 b1 b2 b3 b4 b5 :
  ap_record_ok ap ->
  bssid ap = [b0; b1; b2; b3; b4; b5] ->
  scan_line ap
  = Some (link_text (until_nul (escaped ap)) (rssi ap) (primary ap)
            b0 b1 b2 b3 b4 b5)
  /\ (String.length (link_text (until_nul (escaped ap)) (rssi ap) (primary ap)
                       b0 b1 b2 b3 b4 b5) <= 155)%nat.
Proof.
  intros (_ & Hb & Hs & Hp & Hr) Hbssid. rewrite Hbssid in Hb.
  pose proof (escaped_length ap) as He.
  pose proof (until_nul_length (escaped ap)) as Hu.
  assert (Hlen : (String.length (link_text (until_nul (escaped ap)) (rssi ap)
                    (primary ap) b0 b1 b2 b3 b4 b5) <= 155)%nat)
    by (apply link_text_length; [lia|done..]).
  split; [|exact Hlen].
  unfold scan_line. rewrite escape_ssid_spec by done.
  rewrite fmt_s_padded by lia. rewrite Hbssid.
  unfold snprintf. f_equal. apply substring_whole. lia.
Qed.

Lemma scan_line_is_never_cut_witness :
  scan_line lab_ap
  = Some ("<li><a href=" +:+ dquote
          +:+ "/confirm?ssid=mylab&amp;rssi=-47&amp;chan=6&amp;bssid=de:ad:be:ef:00:01"
          +:+ dquote +:+ ">mylab</a></li>").
Proof.
  destruct (scan_line_is_never_cut lab_ap 0xde 0xad 0xbe 0xef 0x00 0x01) as [E _].
  - unfold ap_record_ok. cbn. repeat split; try lia.
    repeat constructor; lia.
  - reflexivity.
  - rewrite E. reflexivity.
Defined.

(** X14. What a line of the scan page prints for the BSSID and the
    channel of a record is what the attack handler reads back from
    them: the BSSID text is 17 characters long and its six [%x] fields,
    cut to a byte each, are the six bytes of the record, and the channel
    text is between 1 and 3 characters long and [atoi] of it is the
    channel. *)
Theorem scan_link_fields_parse_back ap b0 b1 b2 b3 b4 b5 :
  ap_record_ok ap ->
  bssid ap = [b0; b1; b2; b3; b4; b5] ->
  String.length (bssid_text b0 b1 b2 b3 b4 b5) = 17%nat
  /\ sscanf_x 6 (bssid_text b0 b1 b2 b3 b4 b5) = Some (bssid ap)
  /\ u8 <$> bssid ap = bssid ap
  /\ (1 <= String.length (fmt_d (primary ap)) <= 3)%nat
  /\ atoi (fmt_d (primary ap)) = primary ap.
Proof.
  intros (_ & Hb & _ & Hp & _) Hbssid. rewrite Hbssid in Hb |- *.
  destruct (bssid_text_round_trip _ _ _ _ _ _ Hb) as [H17 Hscan].
  split; [exact H17|]. split; [exact Hscan|].
  split; [|split; [by apply fmt_d_byte_length | by apply atoi_fmt_d_byte]].
  repeat (apply Forall_cons in Hb; destruct Hb as [? Hb]).
  cbn [fmap list_fmap]. unfold u8. by rewrite !Z.mod_small by lia.
Qed.

Lemma scan_link_fields_parse_back_witness :
  sscanf_x 6 "de:ad:be:ef:00:01" = Some ap
  /\ atoi "6" = 6.
Proof.
  destruct (scan_link_fields_parse_back lab_ap 0xde 0xad 0xbe 0xef 0x00 0x01)
    as (_ & E & _ & _ & A).
  - unfold ap_record_ok. cbn. repeat split; try lia.
    repeat constructor; lia.
  - reflexivity.
  - split; [exact E | exact A].
Defined.

(** X15. With no capture file waiting and a query that has an SSID and
    a BSSID of 17 characters, [/confirm] returns [ESP_OK] and sends the
    page whose link to [/attack] repeats the SSID, the channel and the
    BSSID of the query as they are: the 256 bytes of [line] are enough
    for every query that fits the buffers, the channel is not looked at,
    and nothing but the response is touched. *)
Theorem confirm_page_repeats_query req w :
  fs w !! handshake_pcap = None ->
  query_ssid req <> "" ->
  (String.length (query_ssid req) <= 32)%nat ->
  (String.length (query_chan req) <= 7)%nat ->
  String.length (query_bssid req) = 17%nat ->
  confirm_get_handler req w
  = Ret (ESP_OK,
         [confirm_head;
          confirm_text (query_ssid req) (query_chan req) (query_bssid req);
          "</body></html>"; ""])
        (set_http_log (http_log w ++ [RespSetType "text/html"]) w).
Proof.
  intros Hfs Hssid Hs Hc Hb.
  assert (Hgate : (String.length (query_ssid req) =? 0)%nat
                  || negb (String.length (query_bssid req) =? 17)%nat = false).
  { rewrite Hb. by destruct (query_ssid req). }
  assert (Hline : snprintf 256 (confirm_text (query_ssid req) (query_chan req)
                                  (query_bssid req))
                  = confirm_text (query_ssid req) (query_chan req) (query_bssid req)).
  { unfold snprintf. apply substring_whole.
    unfold confirm_text. rewrite !append_length, Hb.
    cbn [String.length dquote]. lia. }
  destruct w as [cap tb tc ocb pf files script t now rad hl].
  cbn in Hfs.
  unfold confirm_get_handler, check_and_clean, handshake_exists,
    httpd_resp_send_err, http_do.
  cbv [bind get ret modify]. cbn [fs]. rewrite Hfs, Hgate, Hline.
  reflexivity.
Qed.

Lemma confirm_page_repeats_query_witness :
  let req := {| uri := "/confirm"; query_ssid := "lab"; query_chan := "6";
                query_bssid := "de:ad:be:ef:00:01" |} in
  exists page,
    confirm_get_handler req (idle [])
    = Ret (ESP_OK, page) (set_http_log [RespSetType "text/html"] (idle []))
    /\ page !! 1%nat
       = Some ("<h2>Confirm attack on SSID: <b>lab</b> (Channel 6)</h2><a href="
               +:+ dquote +:+ "/attack?ssid=lab&chan=6&bssid=de:ad:be:ef:00:01"
               +:+ dquote +:+ ">Confirm</a> &nbsp; <a href=" +:+ dquote
               +:+ "/scan" +:+ dquote +:+ ">Go Back</a>").
Proof.
  intros req. eexists. split.
  - apply (confirm_page_repeats_query req (idle [])); try done; cbn; lia.
  - reflexivity.
Defined.

Section Address.

Lemma fmt_u_byte_length b : 0 <= b < 256 -> (String.length (fmt_u b) <= 3)%nat.
Proof.
  revert b. apply (byte_cases (fun b => (String.length (fmt_u b) <= 3)%nat)).
  let l := eval vm_compute in (seqZ 0 256) in change (seqZ 0 256) with l.
  repeat (constructor; [vm_compute; lia|]).
  constructor.
Qed.

Lemma land_byte x : 0 <= Z.land x 0xff < 256.
Proof.
  change 0xff with (Z.ones 8). rewrite Z.land_ones by lia.
  apply Z.mod_pos_bound. lia.
Qed.

End Address.

(** X16. Whatever address the station is given, the text kept for it is
    the whole dotted quad of its four bytes: the 16 bytes of [s_ip_str]
    are never too few, and the station counts as connected
    afterwards. *)
Theorem ip_text_is_never_cut ip st :
  wifi_get_ip_str (on_ip_event ip st) = dotted_quad (IP2STR ip)
  /\ (String.length (dotted_quad (IP2STR ip)) <= 15)%nat
  /\ s_connected (on_ip_event ip st) = true.
Proof.
  assert (H : (String.length (dotted_quad (IP2STR ip)) <= 15)%nat).
  { unfold dotted_quad, IP2STR. rewrite !append_length. cbn [String.length].
    pose proof (fmt_u_byte_length _ (land_byte ip)).
    pose proof (fmt_u_byte_length _ (land_byte (Z.shiftr ip 8))).
    pose proof (fmt_u_byte_length _ (land_byte (Z.shiftr ip 16))).
    pose proof (fmt_u_byte_length _ (land_byte (Z.shiftr ip 24))).
    lia. }
  split; [|by split].
  unfold wifi_get_ip_str, on_ip_event. cbn [s_ip_str].
  unfold snprintf. apply substring_whole. lia.
Qed.
